(** * The example notebooks of the normalizing-flows repository

    The repository holds two notebooks that drive the [normflows] package:
    a Real NVP model fitted to an image density by maximum likelihood
    (forward KLD), and a neural spline flow fitted to a Gaussian / von Mises
    target by reverse KLD.  Both are sequential scripts: model assembly, a
    training loop, plotting.  The scripts are embedded here as state
    transformers over the notebook's variables; every call into torch,
    normflows or matplotlib that the notebooks cannot compute themselves is
    a field of the record [library]. *)

From Stdlib Require Import List ZArith Lia Bool String Ascii DecimalString DecimalZ.
From Stdlib Require Import Floats.PrimFloat.
Import ListNotations.

Set Warnings "-inexact-float".
Local Open Scope Z_scope.

(** ** Python and torch primitives used by the cells *)

(** [range(n)] for an integer [n]: empty when [n <= 0]. *)
Definition range (n : Z) : list Z := map Z.of_nat (seq 0 (Z.to_nat n)).

(** [for it in l: body], threading the notebook state. *)
Definition for_in {St : Type} (l : list Z) (body : Z -> St -> St) (s : St) : St :=
  fold_left (fun acc it => body it acc) l s.

(** Wrap-around of a 64-bit signed integer, the dtype of [torch.tensor([0, 1])]. *)
Definition int64 (z : Z) : Z := (z + 2 ^ 63) mod 2 ^ 64 - 2 ^ 63.

(** A float tensor, flattened (the notebooks' [view] calls only reshape).
    A float32 value is carried by the binary64 float that equals it;
    operations that round ([exp], division) are taken from the library. *)
Definition tensor := list float.

(** ['%05i' % n]: decimal digits, zero-padded to five characters, the sign
    first. *)
Definition zfill (width : nat) (digits : string) : string :=
  String.concat "" (repeat "0"%string (width - String.length digits)) ++ digits.

Definition format_05i (n : Z) : string :=
  match Z.to_int n with
  | Decimal.Pos d => zfill 5 (NilZero.string_of_uint d)
  | Decimal.Neg d => String "-" (zfill 4 (NilZero.string_of_uint d))
  end.

Module torch.

Definition isnan (x : float) : bool := is_nan x.
Definition isinf (x : float) : bool := is_infinity x.

(** [c - t] for a Python integer [c] and an int64 tensor [t]. *)
Definition rsub (c : Z) (t : list Z) : list Z := map (fun x => int64 (c - x)) t.

(** [t[torch.isnan(t)] = v] *)
Definition masked_fill_nan (v : float) (t : tensor) : tensor :=
  map (fun x => if isnan x then v else x) t.

(** [torch.max(t)]: the largest entry, NaN as soon as one entry is NaN; an
    error on an empty tensor.  Of two entries that compare equal (the two
    signed zeros) the later one is kept. *)
Definition max2 (a x : float) : float :=
  if isnan a then a else if isnan x then x else if (x <? a)%float then a else x.

Definition max (t : tensor) : option float :=
  match t with
  | [] => None
  | x :: r => Some (fold_left max2 r x)
  end.

End torch.

(** ** The external packages

    What the notebooks call and do not define.  A model's parameters, their
    gradient buffers, the optimizer's internals, the random generator, a
    batch of samples, the evaluation grid [zz] and a loss tensor with its
    autograd graph are opaque to the notebooks. *)
Record carriers := {
  params : Type;
  grads : Type;
  optim : Type;
  rng : Type;
  batch : Type;
  points : Type;
  loss_t : Type
}.

Record library (T : carriers) := {
  (** [torch.exp] and tensor division, entry by entry *)
  torch_exp : float -> float;
  torch_div : float -> float -> float;
  (** [loss.to('cpu').data.numpy()], [loss.backward()], [optimizer.zero_grad()] *)
  item : loss_t T -> float;
  backward : loss_t T -> grads T -> grads T;
  zero_grad : grads T -> grads T;
  (** [torch.optim.Adam(..., lr, weight_decay)] and [optimizer.step()] *)
  Adam : float -> float -> optim T;
  adam_step : optim T -> grads T -> params T -> params T * optim T;
  (** the learning rate [CosineAnnealingLR(optimizer, T_max)] sets at an epoch *)
  cosine_annealing : Z -> Z -> optim T -> optim T;
  (** [nfm.p.sample(n)], [forward_kld(x)], [reverse_kld(n)], [log_prob(zz)];
      the boolean is [model.training].  [log_prob] returns one value for
      each row of [zz]; the notebooks' grids have [grid_size * grid_size]
      rows with [grid_size] 200 or 300, so [.view] of the result to the
      shape of [xx] only reshapes it and [pcolormesh] is given a non-empty
      array *)
  p_sample : Z -> rng T -> batch T * rng T;
  forward_kld : params T -> bool -> batch T -> loss_t T;
  reverse_kld : params T -> bool -> Z -> rng T -> loss_t T * rng T;
  log_prob : params T -> bool -> points T -> tensor;
  target_log_prob : points T -> tensor
}.

Arguments torch_exp {T} l _.
Arguments torch_div {T} l _ _.
Arguments item {T} l _.
Arguments backward {T} l _ _.
Arguments zero_grad {T} l _.
Arguments Adam {T} l _ _.
Arguments adam_step {T} l _ _ _.
Arguments cosine_annealing {T} l _ _ _.
Arguments p_sample {T} l _ _.
Arguments forward_kld {T} l _ _ _.
Arguments reverse_kld {T} l _ _ _ _.
Arguments log_prob {T} l _ _ _.
Arguments target_log_prob {T} l _.

(** The library [L] with its target sampler replaced by [f]. *)
Definition with_p_sample {T : carriers} (L : library T)
  (f : Z -> rng T -> batch T * rng T) : library T :=
  {| torch_exp := torch_exp L; torch_div := torch_div L; item := item L;
     backward := backward L; zero_grad := zero_grad L; Adam := Adam L;
     adam_step := adam_step L; cosine_annealing := cosine_annealing L;
     p_sample := f; forward_kld := forward_kld L; reverse_kld := reverse_kld L;
     log_prob := log_prob L; target_log_prob := target_log_prob L |}.

(** The library [L] with its reverse-KLD method replaced by [f]. *)
Definition with_reverse_kld {T : carriers} (L : library T)
  (f : params T -> bool -> Z -> rng T -> loss_t T * rng T) : library T :=
  {| torch_exp := torch_exp L; torch_div := torch_div L; item := item L;
     backward := backward L; zero_grad := zero_grad L; Adam := Adam L;
     adam_step := adam_step L; cosine_annealing := cosine_annealing L;
     p_sample := p_sample L; forward_kld := forward_kld L; reverse_kld := f;
     log_prob := log_prob L; target_log_prob := target_log_prob L |}.

(** Modelled from the spec: the parts of a flow that the body of
    [NormalizingFlow.reverse_kld] works with.  That method belongs to the
    normflows package (normflows/core.py), which is not among the sources;
    the notebook only calls it.  The spec names them: the base
    distribution, "used as the flow's input distribution" and sampled with
    the generator; the flow layers, an "invertible, differentiable
    transformation" that depends on the parameters; and the "scalar loss"
    computed from a batch "via a library method". *)
Record flow_model (T : carriers) := {
  base_sample : Z -> rng T -> batch T * rng T;
  flow_forward : params T -> bool -> batch T -> batch T;
  reverse_loss_of : params T -> bool -> batch T -> loss_t T
}.

Arguments base_sample {T} f _ _.
Arguments flow_forward {T} f _ _ _.
Arguments reverse_loss_of {T} f _ _ _.

(** Modelled from the spec: [NormalizingFlow.reverse_kld(num_samples)] of
    normflows/core.py, which is not among the sources.  The spec has the
    reverse-KLD batch generated "synthetically", its samples drawn "from the
    flow itself" and not from the target: [num_samples] draws of the base
    distribution are sent through the flow layers, and the loss is computed
    from the batch that comes out. *)
Definition spec_reverse_kld {T : carriers} (F : flow_model T)
  (p : params T) (m : bool) (n : Z) (r : rng T) : loss_t T * rng T :=
  let '(z0, r') := base_sample F n r in
  (reverse_loss_of F p m (flow_forward F p m z0), r').

(** What a cell hands to matplotlib. *)
Inductive artist :=
| pcolormesh (C : tensor)
| plot (ys : list float)
| plot_surface (heat : tensor).

(** A file written by a cell. *)
Inductive file (T : carriers) :=
| state_dict (p : params T)
| png.

Arguments state_dict {T} p.
Arguments png {T}.

(** The variables of a running notebook and what it has shown and written. *)
Record notebook (T : carriers) := {
  theta : params T;
  grad : grads T;
  training : bool;
  opt : optim T;
  opt_steps : Z;
  last_epoch : Z;
  gen : rng T;
  loss_hist : list float;
  prob : tensor;
  drawn : list artist;
  disk : list (string * file T)
}.

Arguments theta {T} n.
Arguments grad {T} n.
Arguments training {T} n.
Arguments opt {T} n.
Arguments opt_steps {T} n.
Arguments last_epoch {T} n.
Arguments gen {T} n.
Arguments loss_hist {T} n.
Arguments prob {T} n.
Arguments drawn {T} n.
Arguments disk {T} n.

Section Updates.
Context {T : carriers}.

Definition set_model (s : notebook T) (p : params T) (g : grads T) : notebook T :=
  {| theta := p; grad := g; training := training s; opt := opt s;
     opt_steps := opt_steps s; last_epoch := last_epoch s; gen := gen s;
     loss_hist := loss_hist s; prob := prob s; drawn := drawn s; disk := disk s |}.

Definition set_training (s : notebook T) (m : bool) : notebook T :=
  {| theta := theta s; grad := grad s; training := m; opt := opt s;
     opt_steps := opt_steps s; last_epoch := last_epoch s; gen := gen s;
     loss_hist := loss_hist s; prob := prob s; drawn := drawn s; disk := disk s |}.

Definition set_optimizer (s : notebook T) (o : optim T) (n : Z) : notebook T :=
  {| theta := theta s; grad := grad s; training := training s; opt := o;
     opt_steps := n; last_epoch := last_epoch s; gen := gen s;
     loss_hist := loss_hist s; prob := prob s; drawn := drawn s; disk := disk s |}.

Definition set_scheduler (s : notebook T) (o : optim T) (e : Z) : notebook T :=
  {| theta := theta s; grad := grad s; training := training s; opt := o;
     opt_steps := opt_steps s; last_epoch := e; gen := gen s;
     loss_hist := loss_hist s; prob := prob s; drawn := drawn s; disk := disk s |}.

Definition set_gen (s : notebook T) (g : rng T) : notebook T :=
  {| theta := theta s; grad := grad s; training := training s; opt := opt s;
     opt_steps := opt_steps s; last_epoch := last_epoch s; gen := g;
     loss_hist := loss_hist s; prob := prob s; drawn := drawn s; disk := disk s |}.

Definition set_loss_hist (s : notebook T) (h : list float) : notebook T :=
  {| theta := theta s; grad := grad s; training := training s; opt := opt s;
     opt_steps := opt_steps s; last_epoch := last_epoch s; gen := gen s;
     loss_hist := h; prob := prob s; drawn := drawn s; disk := disk s |}.

Definition set_prob (s : notebook T) (p : tensor) : notebook T :=
  {| theta := theta s; grad := grad s; training := training s; opt := opt s;
     opt_steps := opt_steps s; last_epoch := last_epoch s; gen := gen s;
     loss_hist := loss_hist s; prob := p; drawn := drawn s; disk := disk s |}.

(** A drawing call appends to what has been shown; writing a file appends to
    the write log. *)
Definition draw (s : notebook T) (a : artist) : notebook T :=
  {| theta := theta s; grad := grad s; training := training s; opt := opt s;
     opt_steps := opt_steps s; last_epoch := last_epoch s; gen := gen s;
     loss_hist := loss_hist s; prob := prob s; drawn := drawn s ++ [a];
     disk := disk s |}.

Definition write (s : notebook T) (path : string) (f : file T) : notebook T :=
  {| theta := theta s; grad := grad s; training := training s; opt := opt s;
     opt_steps := opt_steps s; last_epoch := last_epoch s; gen := gen s;
     loss_hist := loss_hist s; prob := prob s; drawn := drawn s;
     disk := disk s ++ [(path, f)] |}.

(** Shared statements of the cells *)

Variable L : library T.

(** [np.append(loss_hist, loss.to('cpu').data.numpy())] *)
Definition log_loss (s : notebook T) (loss : loss_t T) : notebook T :=
  set_loss_hist s (loss_hist s ++ [item L loss]).

(** [loss.backward()] then [optimizer.step()] *)
Definition backprop_and_step (s : notebook T) (loss : loss_t T) : notebook T :=
  let s := set_model s (theta s) (backward L loss (grad s)) in
  let '(p, o) := adam_step L (opt s) (grad s) (theta s) in
  set_optimizer (set_model s p (grad s)) o (opt_steps s + 1).

(** [prob = torch.exp(log_prob)] followed by [prob[torch.isnan(prob)] = 0] *)
Definition exp_nan_to_zero (lp : tensor) : tensor :=
  torch.masked_fill_nan 0%float (map (torch_exp L) lp).

(** [prob_vis = prob / torch.max(prob)] *)
Definition normalise (p : tensor) : option tensor :=
  match torch.max p with
  | Some m => Some (map (fun x => torch_div L x m) p)
  | None => None
  end.

End Updates.

Arguments exp_nan_to_zero {T} L lp.
Arguments normalise {T} L p.

(** ** Real NVP on an image density (forward KLD) *)

Module RealNVP.

Definition K : Z := 32.

(** [nf.nets.MLP(widths)]: a freshly initialised network. *)
Record MLP := { widths : list Z }.

(** [nf.flows.MaskedAffineFlow(b, t, s)] *)
Record MaskedAffineFlow := { b_mask : list Z; t_net : MLP; s_net : MLP }.

Definition b : list Z := [0; 1].

(** Body of [for i in range(K)] in the set-up cell. *)
Definition add_flow (i : Z) (flows : list MaskedAffineFlow) : list MaskedAffineFlow :=
  let s := {| widths := [2; 4; 4; 2] |} in
  let t := {| widths := [2; 4; 4; 2] |} in
  if i mod 2 =? 0
  then flows ++ [ {| b_mask := b; t_net := t; s_net := s |} ]
  else flows ++ [ {| b_mask := torch.rsub 1 b; t_net := t; s_net := s |} ].

Definition flows : list MaskedAffineFlow := for_in (range K) add_flow [].

(** Number of layers whose mask holds [v] at dimension [d]. *)
Definition layers_with (d : nat) (v : Z) (fl : list MaskedAffineFlow) : nat :=
  List.length (filter (fun f => match nth_error (b_mask f) d with
                                | Some x => x =? v
                                | None => false
                                end) fl).

(** The image target.  [plt.imread] yields an M x N array for a grayscale
    file and an M x N x C array otherwise; the element type and the
    broadcast [1 - x] in that type belong to numpy.  A pixel is the list of
    its channels. *)
Section Image.
Variable px : Type.
Variable one_minus : px -> px.

Inductive ndarray :=
| dim2 (a : list (list px))
| dim3 (a : list (list (list px))).

(** [row[:, 0]] of one image row: every pixel needs a channel 0. *)
Fixpoint channel0_row (row : list (list px)) : option (list px) :=
  match row with
  | [] => Some []
  | p :: r =>
      match nth_error p 0, channel0_row r with
      | Some c, Some cs => Some (c :: cs)
      | _, _ => None
      end
  end.

Fixpoint channel0 (a : list (list (list px))) : option (list (list px)) :=
  match a with
  | [] => Some []
  | row :: r =>
      match channel0_row row, channel0 r with
      | Some cs, Some rs => Some (cs :: rs)
      | _, _ => None
      end
  end.

(** [a[:, :, 0]]: IndexError ([None]) on a two-dimensional array. *)
Definition first_channel (a : ndarray) : option (list (list px)) :=
  match a with
  | dim2 _ => None
  | dim3 a3 => channel0 a3
  end.

(** [img = 1 - plt.imread('img.png')[:, :, 0]], the argument of
    [nf.distributions.ImagePrior]. *)
Definition img (decoded : ndarray) : option (list (list px)) :=
  match first_channel decoded with
  | Some c => Some (map (map one_minus) c)
  | None => None
  end.

(** [target = nf.distributions.ImagePrior(img)].  The constructor keeps the
    array.  An array without pixels, which [plt.imread] does not return, is
    refused by the library; that check is not part of this record. *)
Record ImagePrior := { image : list (list px) }.

Definition target (decoded : ndarray) : option ImagePrior :=
  match img decoded with
  | Some m => Some {| image := m |}
  | None => None
  end.

(** [a[i, j, 0]] and [m[i, j]] *)
Definition at3 (a : list (list (list px))) (i j : nat) : option px :=
  match nth_error a i with
  | Some row => match nth_error row j with
                | Some p => nth_error p 0
                | None => None
                end
  | None => None
  end.

Definition at2 (m : list (list px)) (i j : nat) : option px :=
  match nth_error m i with
  | Some row => nth_error row j
  | None => None
  end.

(** Every pixel of the decoded array has at least one channel. *)
Definition has_channels (a : list (list (list px))) : Prop :=
  Forall (Forall (fun p => p <> [])) a.

End Image.

Arguments dim2 {px} a.
Arguments dim3 {px} a.
Arguments channel0_row {px} row.
Arguments channel0 {px} a.
Arguments first_channel {px} a.
Arguments img {px} one_minus decoded.
Arguments image {px} i.
Arguments target {px} one_minus decoded.
Arguments at3 {px} a i j.
Arguments at2 {px} m i j.
Arguments has_channels {px} a.

Section Cells.
Context {T : carriers}.
Variable L : library T.
Variable zz : points T.

(** Cell "Plot prior distribution" / "Plot initial posterior distribution" *)
Definition plot_prior_and_posterior (s : notebook T) : notebook T :=
  let s := set_prob s (map (torch_exp L) (target_log_prob L zz)) in
  let s := draw s (pcolormesh (prob s)) in
  let s := set_prob s (exp_nan_to_zero L (log_prob L (theta s) (training s) zz)) in
  draw s (pcolormesh (prob s)).

Definition max_iter : Z := 10000.
Definition num_samples : Z := 2 * 16.
Definition show_iter : Z := 2000.

(** Body of [for it in tqdm(range(max_iter))] *)
Definition iteration (it : Z) (s : notebook T) : notebook T :=
  let s := set_model s (theta s) (zero_grad L (grad s)) in
  let '(x, g) := p_sample L num_samples (gen s) in
  let s := set_gen s g in
  let loss := forward_kld L (theta s) (training s) x in
  let s := backprop_and_step L s loss in
  let s := log_loss L s loss in
  if (it + 1) mod show_iter =? 0 then
    let s := set_prob s (exp_nan_to_zero L (log_prob L (theta s) (training s) zz)) in
    draw s (pcolormesh (prob s))
  else s.

(** Cell "Train model" *)
Definition train (s : notebook T) : notebook T :=
  let s := set_loss_hist s [] in
  let s := set_optimizer s (Adam L 1e-4 1e-4) 0 in
  let s := for_in (range max_iter) iteration s in
  draw s (plot (loss_hist s)).

(** Cell "Plot learned distribution" *)
Definition plot_learned (s : notebook T) : notebook T :=
  let s := set_prob s (exp_nan_to_zero L (log_prob L (theta s) (training s) zz)) in
  draw s (pcolormesh (prob s)).

Definition run (s : notebook T) : notebook T :=
  plot_learned (train (plot_prior_and_posterior s)).

End Cells.

End RealNVP.

(** ** Neural spline flow on a circular and a normal coordinate (reverse KLD)

    The target's [log_prob], written in the notebook with torch's float
    arithmetic, is the field [target_log_prob]. *)

Module NSF.

Section Cells.
Context {T : carriers}.
Variable L : library T.
Variable zz : points T.

(** Cell "Plot target" *)
Definition plot_target (s : notebook T) : notebook T :=
  let s := set_prob s (exp_nan_to_zero L (target_log_prob L zz)) in
  draw s (pcolormesh (prob s)).

(** Cell "Plot model" *)
Definition plot_model (s : notebook T) : notebook T :=
  let s := set_prob s (exp_nan_to_zero L (log_prob L (theta s) (training s) zz)) in
  draw s (pcolormesh (prob s)).

Definition max_iter : Z := 10000.
Definition num_samples : Z := 2 ^ 14.
Definition show_iter : Z := 500.

(** ['model_%05i.pt' % n] *)
Definition checkpoint_path (n : Z) : string :=
  ("model_" ++ format_05i n ++ ".pt")%string.

(** [scheduler.step()] *)
Definition scheduler_step (s : notebook T) : notebook T :=
  let e := last_epoch s + 1 in
  set_scheduler s (cosine_annealing L max_iter e (opt s)) e.

(** Body of [for it in tqdm(range(max_iter))] *)
Definition iteration (it : Z) (s : notebook T) : notebook T :=
  let s := set_model s (theta s) (zero_grad L (grad s)) in
  let '(loss, g) := reverse_kld L (theta s) (training s) num_samples (gen s) in
  let s := set_gen s g in
  let s :=
    if negb (torch.isnan (item L loss) || torch.isinf (item L loss))
    then backprop_and_step L s loss
    else s in
  let s := log_loss L s loss in
  let s :=
    if (it + 1) mod show_iter =? 0 then
      let s := set_training s false in
      let log_prob := log_prob L (theta s) (training s) zz in
      let s := set_training s true in
      let s := set_prob s (exp_nan_to_zero L log_prob) in
      let s := draw s (pcolormesh (prob s)) in
      write s (checkpoint_path (it + 1)) (state_dict (theta s))
    else s in
  scheduler_step s.

(** Cell "Train model" *)
Definition train (s : notebook T) : notebook T :=
  let s := set_loss_hist s [] in
  let s := set_optimizer s (Adam L 5e-4 0) 0 in
  let s := set_scheduler s (cosine_annealing L max_iter 0 (opt s)) 0 in
  let s := for_in (range max_iter) iteration s in
  draw s (plot (loss_hist s)).

(** First cell of "Visualization of the Results": the surface is coloured
    from the variable [prob] as the last cell left it. *)
Definition sphere (s : notebook T) : option (notebook T) :=
  match normalise L (prob s) with
  | Some prob_vis => Some (draw s (plot_surface prob_vis))
  | None => None
  end.

(** [plt.savefig(path, dvi=300)], the last call but [plt.show()] of the two
    cells below.  [dvi] is not a keyword of [savefig] ([dpi] is): a
    matplotlib that ignores unknown keywords writes the file, one that
    refuses them (3.6 and later) raises TypeError.  [accepted] tells which
    of the two runs the notebook. *)
Definition savefig (accepted : bool) (path : string) (s : notebook T)
  : option (notebook T) :=
  if accepted then Some (write s path png) else None.

(** Second cell, up to its [savefig]: target and model heat maps side by
    side. *)
Definition heatmaps (s : notebook T) : notebook T :=
  let s := set_prob s (exp_nan_to_zero L (target_log_prob L zz)) in
  let s := draw s (pcolormesh (prob s)) in
  let s := set_prob s (exp_nan_to_zero L (log_prob L (theta s) (training s) zz)) in
  draw s (pcolormesh (prob s)).

Definition heatmaps_cell (accepted : bool) (s : notebook T) : option (notebook T) :=
  savefig accepted "2dplot.png" (heatmaps s).

(** Third cell, up to its [savefig]: target and model on two surfaces. *)
Definition surfaces (s : notebook T) : option (notebook T) :=
  let s := set_prob s (exp_nan_to_zero L (target_log_prob L zz)) in
  match normalise L (prob s) with
  | None => None
  | Some prob_vis =>
      let s := draw s (plot_surface prob_vis) in
      let s := set_prob s (exp_nan_to_zero L (log_prob L (theta s) (training s) zz)) in
      match normalise L (prob s) with
      | None => None
      | Some prob_vis => Some (draw s (plot_surface prob_vis))
      end
  end.

Definition surfaces_cell (accepted : bool) (s : notebook T) : option (notebook T) :=
  match surfaces s with
  | Some s => savefig accepted "3dplot.png" s
  | None => None
  end.

(** The cells in order; a cell that raises ends the run. *)
Definition run (accepted : bool) (s : notebook T) : option (notebook T) :=
  match sphere (train (plot_model (plot_target s))) with
  | Some s =>
      match heatmaps_cell accepted s with
      | Some s => surfaces_cell accepted s
      | None => None
      end
  | None => None
  end.

End Cells.

End NSF.

(** ** A small library instance for worked examples

    A one-parameter location model [N(mu, 1)] trained by plain gradient
    descent.  A loss is the pair of its value and its derivative in [mu]; a
    batch is its size and the common value of its samples; the generator is
    a draw counter. *)

Module Sample.

Local Open Scope float_scope.

(** An exponential on binary64 that is exact on the IEEE special values
    (NaN, the infinities) and a coarse scaling-and-squaring elsewhere. *)
Definition exp64 (x : float) : float :=
  if is_nan x then x
  else if x =? infinity then infinity
  else if x =? neg_infinity then 0
  else
    let y := x / 1024 in
    let t := 1 + y * (1 + y / 2 * (1 + y / 3 * (1 + y / 4))) in
    Nat.iter 10 (fun u => u * u) t.

Definition carrier : carriers := {|
  params := float;
  grads := float;
  optim := float;
  rng := Z;
  batch := Z * float;
  points := list float;
  loss_t := float * float
|}.

Definition sample_item (l : loss_t carrier) : float := fst l.

Definition sample_backward (l : loss_t carrier) (g : grads carrier) : grads carrier :=
  g + snd l.

Definition sample_step (lr : optim carrier) (g : grads carrier) (mu : params carrier)
  : params carrier * optim carrier := (mu - lr * g, lr).

Definition sample_draw (n : Z) (r : rng carrier) : batch carrier * rng carrier :=
  ((n, 1), (r + 1)%Z).

Definition sample_forward_kld (mu : params carrier) (_ : bool) (x : batch carrier)
  : loss_t carrier := (0.5 * (snd x - mu) * (snd x - mu), mu - snd x).

Definition sample_reverse_kld (mu : params carrier) (_ : bool) (_ : Z) (r : rng carrier)
  : loss_t carrier * rng carrier := ((0.5 * mu * mu, mu), (r + 1)%Z).

Definition sample_log_prob (mu : params carrier) (_ : bool) (zz : points carrier)
  : tensor := map (fun z => - (0.5 * (z - mu) * (z - mu))) zz.

Definition sample_target_log_prob (zz : points carrier) : tensor :=
  map (fun z => - (0.5 * z * z)) zz.

Definition lib : library carrier :=
  Build_library carrier
    exp64 PrimFloat.div
    sample_item sample_backward (fun _ => 0)
    (fun lr _ => lr) sample_step
    (fun _ _ lr => lr)
    sample_draw sample_forward_kld sample_reverse_kld
    sample_log_prob sample_target_log_prob.

(** The same library with a model that reports the log-density [lp] on the
    grid. *)
Definition reporting (lp : tensor) : library carrier :=
  Build_library carrier
    exp64 PrimFloat.div
    sample_item sample_backward (fun _ => 0)
    (fun lr _ => lr) sample_step
    (fun _ _ lr => lr)
    sample_draw sample_forward_kld sample_reverse_kld
    (fun _ _ _ => lp) sample_target_log_prob.

(** The flow of the location model: a base batch sits at [c], the flow adds
    [mu], and the loss is computed from the batch that comes out. *)
Definition sample_base (c : float) (n : Z) (r : rng carrier)
  : batch carrier * rng carrier := ((n, c), (r + 1)%Z).

Definition sample_flow (mu : params carrier) (_ : bool) (z : batch carrier)
  : batch carrier := (fst z, snd z + mu).

Definition sample_reverse_loss (_ : params carrier) (_ : bool) (z : batch carrier)
  : loss_t carrier := (0.5 * snd z * snd z, snd z).

Definition flow_at (c : float) : flow_model carrier :=
  Build_flow_model carrier (sample_base c) sample_flow sample_reverse_loss.

(** The sample library with the reverse KLD of that flow. *)
Definition lib_of_flow (c : float) : library carrier :=
  with_reverse_kld lib (spec_reverse_kld (flow_at c)).

Definition zz : points carrier := [-1; 0; 1].

(** A fresh notebook whose model has mean [mu]; learning rate 0.5. *)
Definition fresh (mu : float) : notebook carrier := {|
  theta := (mu : params carrier); grad := (0 : grads carrier); training := true;
  opt := (0.5 : optim carrier); opt_steps := 0%Z;
  last_epoch := 0%Z; gen := (0%Z : rng carrier); loss_hist := []; prob := [];
  drawn := []; disk := []
|}.

End Sample.

(** ** Observations on a notebook *)

(** The grids shown as heat maps, in order. *)
Definition heat_maps (l : list artist) : list tensor :=
  flat_map (fun a => match a with pcolormesh C => [C] | _ => [] end) l.

(** The paths written, in order. *)
Definition paths {T : carriers} (d : list (string * file T)) : list string :=
  map fst d.

(** [torch.isnan(x) | torch.isinf(x)] *)
Definition non_finite (x : float) : bool := torch.isnan x || torch.isinf x.

(** The loss of one round, as each loop computes it from the notebook. *)
Definition forward_loss {T : carriers} (L : library T) (s : notebook T) : loss_t T :=
  forward_kld L (theta s) (training s)
    (fst (p_sample L RealNVP.num_samples (gen s))).

Definition reverse_loss {T : carriers} (L : library T) (s : notebook T) : loss_t T :=
  fst (reverse_kld L (theta s) (training s) NSF.num_samples (gen s)).

(** The gradient buffers after [zero_grad()] and [loss.backward()]. *)
Definition forward_grads {T : carriers} (L : library T) (s : notebook T) : grads T :=
  backward L (forward_loss L s) (zero_grad L (grad s)).

Definition reverse_grads {T : carriers} (L : library T) (s : notebook T) : grads T :=
  backward L (reverse_loss L s) (zero_grad L (grad s)).

(** The number of finite values in a loss history. *)
Definition finite_losses (h : list float) : Z :=
  Z.of_nat (List.length (filter (fun x => negb (non_finite x)) h)).

(** The notebook of the reverse-KLD training cell when its loop starts, and
    after the first [n] iterations of the loop. *)
Definition nsf_start {T : carriers} (L : library T) (s : notebook T) : notebook T :=
  let s := set_loss_hist s [] in
  let s := set_optimizer s (Adam L 5e-4 0) 0 in
  set_scheduler s (cosine_annealing L NSF.max_iter 0 (opt s)) 0.

Definition nsf_after {T : carriers} (L : library T) (zz : points T)
  (s : notebook T) (n : Z) : notebook T :=
  for_in (range n) (NSF.iteration L zz) (nsf_start L s).

(** The same for the forward-KLD training cell. *)
Definition realnvp_start {T : carriers} (L : library T) (s : notebook T) : notebook T :=
  let s := set_loss_hist s [] in
  set_optimizer s (Adam L 1e-4 1e-4) 0.

Definition realnvp_after {T : carriers} (L : library T) (zz : points T)
  (s : notebook T) (n : Z) : notebook T :=
  for_in (range n) (RealNVP.iteration L zz) (realnvp_start L s).

(** A decoded image has pixels: at least one row, and no row is empty.
    [plt.imread] returns no other array. *)
Definition has_pixels {px : Type} (decoded : RealNVP.ndarray px) : Prop :=
  match decoded with
  | RealNVP.dim2 g => g <> [] /\ Forall (fun row => row <> []) g
  | RealNVP.dim3 a => a <> [] /\ Forall (fun row => row <> []) a
  end.

(** Reading a decimal string back ([int(s)]): digits, or a sign and digits. *)
Definition read_int (s : string) : option Z :=
  match NilEmpty.uint_of_string s with
  | Some d => Some (Z.of_uint d)
  | None =>
      match s with
      | String "-" r => option_map (fun d => - Z.of_uint d) (NilEmpty.uint_of_string r)
      | _ => None
      end
  end.

(** ** The evaluation grid

    The cells that plot build [zz] from two coordinate vectors (the results
    of [torch.linspace]) and reshape the flat log-density to the shape of
    [xx].  Tensors of one, two and three dimensions are nested lists. *)

Module Grid.

Section Tensors.
Context {A : Type}.

(** [torch.meshgrid(a, b)], 'ij' indexing: [xx[i][j] = a[i]], [yy[i][j] = b[j]]. *)
Definition meshgrid (a b : list A) : list (list A) * list (list A) :=
  (map (fun x => map (fun _ => x) b) a, map (fun _ => b) a).

(** [t.unsqueeze(2)] *)
Definition unsqueeze2 (t : list (list A)) : list (list (list A)) :=
  map (map (fun x => [x])) t.

(** [torch.cat([u, v], 2)]: the sizes of dimensions 0 and 1 must agree. *)
Fixpoint cat_row (u v : list (list A)) : option (list (list A)) :=
  match u, v with
  | [], [] => Some []
  | x :: u', y :: v' =>
      match cat_row u' v' with
      | Some r => Some ((x ++ y) :: r)
      | None => None
      end
  | _, _ => None
  end.

Fixpoint cat2 (u v : list (list (list A))) : option (list (list (list A))) :=
  match u, v with
  | [], [] => Some []
  | x :: u', y :: v' =>
      match cat_row x y, cat2 u' v' with
      | Some r, Some rs => Some (r :: rs)
      | _, _ => None
      end
  | _, _ => None
  end.

(** [t.view(-1, 2)]: the entries in storage order, two per row; an error
    on an odd number of entries, and on a tensor without entries, where
    torch cannot infer the size that [-1] stands for. *)
Fixpoint rows_of_two (flat : list A) : option (list (list A)) :=
  match flat with
  | [] => Some []
  | x :: y :: r =>
      match rows_of_two r with
      | Some rs => Some ([x; y] :: rs)
      | None => None
      end
  | [_] => None
  end.

Definition view_rows_of_two (t : list (list (list A))) : option (list (list A)) :=
  match List.concat (List.concat t) with
  | [] => None
  | flat => rows_of_two flat
  end.

(** [zz = torch.cat([xx.unsqueeze(2), yy.unsqueeze(2)], 2).view(-1, 2)] *)
Definition zz (xs ys : list A) : option (list (list A)) :=
  let '(xx, yy) := meshgrid xs ys in
  match cat2 (unsqueeze2 xx) (unsqueeze2 yy) with
  | Some c => view_rows_of_two c
  | None => None
  end.

(** [t.view(n, m)] of a flat tensor: [n] rows of [m] consecutive entries;
    an error unless there are [n * m] entries. *)
Fixpoint view (n m : nat) (flat : list A) : option (list (list A)) :=
  match n with
  | O => match flat with [] => Some [] | _ => None end
  | S n' =>
      if (List.length flat <? m)%nat then None
      else match view n' m (skipn m flat) with
           | Some rs => Some (firstn m flat :: rs)
           | None => None
           end
  end.

(** Entry [i, j] of a two-dimensional tensor. *)
Definition at2 (t : list (list A)) (i j : nat) : option A :=
  match nth_error t i with
  | Some row => nth_error row j
  | None => None
  end.

End Tensors.

End Grid.

(** ** The model of the README's usage section *)

Module Readme.

(** [nf.nets.MLP(widths, init_zeros=...)] *)
Record MLP := { widths : list Z; init_zeros : bool }.

Inductive flow :=
| AffineCouplingBlock (param_map : MLP)
| Permute (num_channels : Z) (mode : string).

Definition num_layers : Z := 32.

(** Body of [for i in range(num_layers)] *)
Definition add_layer (i : Z) (flows : list flow) : list flow :=
  let param_map := {| widths := [1; 64; 64; 2]; init_zeros := true |} in
  let flows := flows ++ [AffineCouplingBlock param_map] in
  flows ++ [Permute 2 "swap"].

Definition build (n : Z) : list flow := for_in (range n) add_layer [].

Definition flows : list flow := build num_layers.

End Readme.

(** ** The neural spline flow model

    The tensors [torch.tensor([1., 2 * np.pi])] and
    [torch.tensor([5., np.pi])] are values of torch. *)

Module NSF_model.

Section Assembly.
Variable scale : tensor.
Variable tail_bound : tensor.

(** [nf.distributions.UniformGaussian(ndim, ind, scale)] *)
Record UniformGaussian := { ndim : Z; ind : list Z; base_scale : tensor }.

(** [nf.flows.CircularAutoregressiveRationalQuadraticSpline(...)] *)
Record CircularSpline := {
  num_input_channels : Z;
  num_blocks : Z;
  num_hidden_channels : Z;
  ind_circ : list Z;
  num_bins : Z;
  spline_tail_bound : tensor;
  permute_mask : bool
}.

Definition base : UniformGaussian :=
  {| ndim := 2; ind := [1]; base_scale := scale |}.

Definition K : Z := 12.

(** Body of [for i in range(K)] *)
Definition add_layer (i : Z) (flow_layers : list CircularSpline) : list CircularSpline :=
  flow_layers ++
  [ {| num_input_channels := 2; num_blocks := 1; num_hidden_channels := 512;
       ind_circ := [1]; num_bins := 10; spline_tail_bound := tail_bound;
       permute_mask := true |} ].

Definition build (n : Z) : list CircularSpline := for_in (range n) add_layer [].

Definition flow_layers : list CircularSpline := build K.

End Assembly.

End NSF_model.

(** * Properties *)

(** The loops run for ten thousand rounds: they are reasoned about through
    the lemmas below and never unfolded by simplification. *)
Arguments range : simpl never.
Arguments for_in : simpl never.

(** ** Loops over [range] *)

Lemma range_length (n : Z) : List.length (range n) = Z.to_nat n.
Proof. unfold range. now rewrite length_map, length_seq. Qed.

Lemma range_snoc (n : nat) :
  range (Z.of_nat (S n)) = range (Z.of_nat n) ++ [Z.of_nat n].
Proof.
  unfold range. rewrite !Nat2Z.id, seq_S, map_app. reflexivity.
Qed.

Lemma range_nth (n : Z) (i : nat) :
  (i < Z.to_nat n)%nat -> nth_error (range n) i = Some (Z.of_nat i).
Proof.
  intros Hi. unfold range.
  rewrite nth_error_map, nth_error_seq.
  destruct (Nat.ltb_spec i (Z.to_nat n)); [reflexivity | lia].
Qed.

Lemma for_in_snoc {St : Type} (body : Z -> St -> St) (l : list Z) (x : Z) (s : St) :
  for_in (l ++ [x]) body s = body x (for_in l body s).
Proof. unfold for_in. now rewrite fold_left_app. Qed.

(** Invariant rule: [P k] holds before iteration [k]. *)
Lemma for_in_range_inv {St : Type} (body : Z -> St -> St) (P : Z -> St -> Prop)
      (n : Z) (s : St) :
  0 <= n ->
  P 0 s ->
  (forall it t, 0 <= it < n -> P it t -> P (it + 1) (body it t)) ->
  P n (for_in (range n) body s).
Proof.
  intros Hn H0 Hstep.
  rewrite <- (Z2Nat.id n Hn).
  assert (Hle : (Z.to_nat n <= Z.to_nat n)%nat) by lia.
  revert Hle. generalize (Z.to_nat n) at 1 3 4 as k.
  induction k as [|k IH]; intros Hle.
  - exact H0.
  - rewrite range_snoc, for_in_snoc.
    replace (Z.of_nat (S k)) with (Z.of_nat k + 1) by lia.
    apply Hstep; [lia | apply IH; lia].
Qed.

Lemma for_in_ext {St : Type} (f g : Z -> St -> St) (l : list Z) (s : St) :
  (forall i t, f i t = g i t) -> for_in l f s = for_in l g s.
Proof.
  intros E. revert s. unfold for_in.
  induction l as [|x l IH]; intros s; simpl; [reflexivity|].
  now rewrite E, IH.
Qed.

(** A loop whose body appends one element computed from the index. *)
Lemma for_in_append {A : Type} (f : Z -> A) (l : list Z) (acc : list A) :
  for_in l (fun i xs => xs ++ [f i]) acc = acc ++ map f l.
Proof.
  revert acc. induction l as [|x l IH]; intros acc; simpl.
  - now rewrite app_nil_r.
  - unfold for_in in *. simpl. rewrite IH, <- app_assoc. reflexivity.
Qed.

(** ** Real NVP: the coupling masks *)

(** The layer the set-up loop builds at index [i]. *)
Lemma add_flow_layer (i : Z) (fl : list RealNVP.MaskedAffineFlow) :
  RealNVP.add_flow i fl =
  fl ++ [ RealNVP.Build_MaskedAffineFlow
            (if i mod 2 =? 0 then RealNVP.b else torch.rsub 1 RealNVP.b)
            (RealNVP.Build_MLP [2; 4; 4; 2]) (RealNVP.Build_MLP [2; 4; 4; 2]) ].
Proof. unfold RealNVP.add_flow. destruct (i mod 2 =? 0); reflexivity. Qed.

Lemma flows_mask (i : nat) :
  (i < 32)%nat ->
  option_map RealNVP.b_mask (nth_error RealNVP.flows i) =
  Some (if Z.of_nat i mod 2 =? 0 then [0; 1] else [1; 0]).
Proof.
  intros Hi. unfold RealNVP.flows.
  rewrite (for_in_ext _ _ _ _ add_flow_layer).
  rewrite (for_in_append
             (fun i => RealNVP.Build_MaskedAffineFlow
                         (if i mod 2 =? 0 then RealNVP.b else torch.rsub 1 RealNVP.b)
                         (RealNVP.Build_MLP [2; 4; 4; 2])
                         (RealNVP.Build_MLP [2; 4; 4; 2]))).
  rewrite app_nil_l, nth_error_map, range_nth by (unfold RealNVP.K; lia).
  simpl. destruct (Z.of_nat i mod 2 =? 0); reflexivity.
Qed.

Lemma even_mod2 (i : nat) : (Z.of_nat i mod 2 =? 0) = Nat.even i.
Proof.
  destruct (Nat.even i) eqn:E.
  - apply Nat.even_spec in E. destruct E as [k ->]. apply Z.eqb_eq.
    Z.div_mod_to_equations. lia.
  - assert (O : Nat.odd i = true) by (unfold Nat.odd; now rewrite E).
    apply Nat.odd_spec in O. destruct O as [k ->]. apply Z.eqb_neq.
    Z.div_mod_to_equations. lia.
Qed.

(** C8: the 32 coupling layers alternate their masks: layer [i] has mask
    [0, 1] for even [i] and [1, 0] for odd [i]; the masks of two consecutive
    layers are complementary ([1 - b] of one another); and at each of the
    two dimensions the mask is 0 in 16 layers and 1 in the other 16, so each
    dimension is transformed by half of the layers. *)
Theorem masks_alternate (i : nat) :
  (i < 32)%nat ->
  List.length RealNVP.flows = 32%nat /\
  option_map RealNVP.b_mask (nth_error RealNVP.flows i) =
    Some (if Nat.even i then [0; 1] else [1; 0]) /\
  ((S i < 32)%nat ->
     option_map RealNVP.b_mask (nth_error RealNVP.flows (S i)) =
     option_map (fun f => torch.rsub 1 (RealNVP.b_mask f)) (nth_error RealNVP.flows i)) /\
  (forall d v, (d < 2)%nat -> v = 0 \/ v = 1 ->
     RealNVP.layers_with d v RealNVP.flows = 16%nat).
Proof.
  intros Hi. split; [reflexivity|]. split; [|split].
  - rewrite flows_mask by assumption. now rewrite even_mod2.
  - intros HS.
    destruct (nth_error RealNVP.flows i) as [f|] eqn:Hf.
    + pose proof (flows_mask i Hi) as Hm. rewrite Hf in Hm. simpl in Hm.
      injection Hm as Hm. rewrite (flows_mask (S i) HS). simpl option_map.
      rewrite Hm. rewrite Nat2Z.inj_succ.
      destruct (Z.of_nat i mod 2 =? 0) eqn:E.
      * apply Z.eqb_eq in E.
        replace (Z.succ (Z.of_nat i) mod 2 =? 0) with false; [reflexivity|].
        symmetry. apply Z.eqb_neq. Z.div_mod_to_equations. lia.
      * apply Z.eqb_neq in E.
        replace (Z.succ (Z.of_nat i) mod 2 =? 0) with true; [reflexivity|].
        symmetry. apply Z.eqb_eq. Z.div_mod_to_equations. lia.
    + apply nth_error_None in Hf. change (List.length RealNVP.flows) with 32%nat in Hf. lia.
  - intros d v Hd Hv.
    destruct d as [|[|d]]; [| |lia]; destruct Hv as [-> | ->]; reflexivity.
Qed.

Lemma masks_alternate_witness :
  option_map RealNVP.b_mask (nth_error RealNVP.flows 5) = Some [1; 0].
Proof. exact (proj1 (proj2 (masks_alternate 5 ltac:(lia)))). Defined.

(** ** The training loops, one iteration at a time *)

Lemma range_succ (n : Z) : 0 <= n -> range (n + 1) = range n ++ [n].
Proof.
  intros Hn. rewrite <- (Z2Nat.id n Hn) at 1 3.
  replace (Z.of_nat (Z.to_nat n) + 1) with (Z.of_nat (S (Z.to_nat n))) by lia.
  rewrite range_snoc. now rewrite !Z2Nat.id.
Qed.

Ltac fields :=
  cbn beta iota delta [theta grad training opt opt_steps last_epoch gen
                       loss_hist prob drawn disk set_model set_training
                       set_optimizer set_scheduler set_gen set_loss_hist
                       set_prob draw write fst snd].

Ltac open_pairs :=
  repeat match goal with
         | |- context [let '(_, _) := ?p in _] => destruct p
         end.

Ltac split_tests :=
  repeat match goal with
         | |- context [if ?c then _ else _] => destruct c
         end.

(** Unfold one iteration of either loop down to its record of fields. *)
Ltac step_fields :=
  unfold RealNVP.iteration, NSF.iteration, NSF.scheduler_step,
    backprop_and_step, log_loss;
  fields; open_pairs; split_tests; fields; open_pairs; fields.

Section Iterations.
Context {T : carriers}.
Variable L : library T.
Variable zz : points T.

Lemma forward_logs (it : Z) (s : notebook T) :
  loss_hist (RealNVP.iteration L zz it s) = loss_hist s ++ [item L (forward_loss L s)].
Proof.
  unfold forward_loss, RealNVP.iteration. fields.
  destruct (p_sample L RealNVP.num_samples (gen s)) as [x g].
  step_fields; reflexivity.
Qed.

Lemma reverse_logs (it : Z) (s : notebook T) :
  loss_hist (NSF.iteration L zz it s) = loss_hist s ++ [item L (reverse_loss L s)].
Proof.
  unfold reverse_loss, NSF.iteration. fields.
  destruct (reverse_kld L (theta s) (training s) NSF.num_samples (gen s))
    as [l g].
  step_fields; reflexivity.
Qed.

End Iterations.

(** ** Loop-level consequences of per-iteration equations *)

Section Loops.
Context {T : carriers}.
Variable body : Z -> notebook T -> notebook T.

Lemma loop_loss_hist (n : Z) (s : notebook T) :
  (forall it t, exists l, loss_hist (body it t) = loss_hist t ++ [l]) ->
  0 <= n ->
  Z.of_nat (List.length (loss_hist (for_in (range n) body s))) =
  Z.of_nat (List.length (loss_hist s)) + n.
Proof.
  intros Hbody Hn.
  apply (for_in_range_inv body
           (fun k t => Z.of_nat (List.length (loss_hist t)) =
                       Z.of_nat (List.length (loss_hist s)) + k)); [assumption|lia|].
  intros it t _ IH. destruct (Hbody it t) as [l ->].
  rewrite length_app. simpl. lia.
Qed.

Lemma loop_last_epoch (n : Z) (s : notebook T) :
  (forall it t, last_epoch (body it t) = last_epoch t + 1) ->
  0 <= n ->
  last_epoch (for_in (range n) body s) = last_epoch s + n.
Proof.
  intros Hbody Hn.
  apply (for_in_range_inv body (fun k t => last_epoch t = last_epoch s + k));
    [assumption|lia|].
  intros it t _ IH. rewrite Hbody. lia.
Qed.

Lemma div_succ (k it : Z) :
  0 < k -> 0 <= it ->
  (it + 1) / k = it / k + (if (it + 1) mod k =? 0 then 1 else 0).
Proof.
  intros Hk Hit. destruct ((it + 1) mod k =? 0) eqn:E.
  - apply Z.eqb_eq in E. Z.div_mod_to_equations. nia.
  - apply Z.eqb_neq in E. Z.div_mod_to_equations. nia.
Qed.

Lemma loop_heat_maps (k n : Z) (s : notebook T) :
  0 < k ->
  (forall it t, exists C,
      drawn (body it t) =
      drawn t ++ (if (it + 1) mod k =? 0 then [pcolormesh C] else [])) ->
  0 <= n ->
  Z.of_nat (List.length (heat_maps (drawn (for_in (range n) body s)))) =
  Z.of_nat (List.length (heat_maps (drawn s))) + n / k.
Proof.
  intros Hk Hbody Hn.
  apply (for_in_range_inv body
           (fun j t => Z.of_nat (List.length (heat_maps (drawn t))) =
                       Z.of_nat (List.length (heat_maps (drawn s))) + j / k));
    [assumption| rewrite Zdiv_0_l; lia |].
  intros it t [Hit _] IH. destruct (Hbody it t) as [C ->].
  unfold heat_maps in *. rewrite flat_map_app, length_app, Nat2Z.inj_add, IH.
  rewrite (div_succ k it Hk Hit).
  destruct ((it + 1) mod k =? 0); simpl; lia.
Qed.

Lemma loop_paths (k n : Z) (s : notebook T) :
  0 < k ->
  (forall it t, exists f,
      disk (body it t) =
      disk t ++ (if (it + 1) mod k =? 0
                 then [(NSF.checkpoint_path (it + 1), f)] else [])) ->
  0 <= n ->
  paths (disk (for_in (range n) body s)) =
  paths (disk s) ++
  map (fun i => NSF.checkpoint_path (k * i)) (map Z.succ (range (n / k))).
Proof.
  intros Hk Hbody Hn.
  apply (for_in_range_inv body
           (fun j t => paths (disk t) =
                       paths (disk s) ++
                       map (fun i => NSF.checkpoint_path (k * i))
                           (map Z.succ (range (j / k)))));
    [assumption| rewrite Zdiv_0_l; now rewrite app_nil_r |].
  intros it t [Hit _] IH. destruct (Hbody it t) as [f ->].
  pose proof (div_succ k it Hk Hit) as Hd.
  pose proof (Z.div_mod (it + 1) k ltac:(lia)) as Hm.
  unfold paths in *. rewrite map_app, IH, Hd.
  destruct ((it + 1) mod k =? 0) eqn:E.
  - apply Z.eqb_eq in E.
    rewrite range_succ by (apply Z.div_pos; lia).
    rewrite !map_app, <- app_assoc. simpl.
    replace (k * Z.succ (it / k)) with (it + 1) by lia. reflexivity.
  - now rewrite Z.add_0_r, app_nil_r.
Qed.

Lemma loop_disk_untouched (n : Z) (s : notebook T) :
  (forall it t, disk (body it t) = disk t) ->
  disk (for_in (range n) body s) = disk s.
Proof.
  intros Hbody. unfold for_in. revert s.
  induction (range n) as [|x l IH]; intros s; simpl; [reflexivity|].
  now rewrite IH, Hbody.
Qed.

End Loops.

(** ** What one iteration does to each part of the notebook *)

Section Rounds.
Context {T : carriers}.
Variable L : library T.
Variable zz : points T.

Lemma forward_steps (it : Z) (s : notebook T) :
  opt_steps (RealNVP.iteration L zz it s) = opt_steps s + 1 /\
  grad (RealNVP.iteration L zz it s) = forward_grads L s /\
  (theta (RealNVP.iteration L zz it s), opt (RealNVP.iteration L zz it s)) =
    adam_step L (opt s) (forward_grads L s) (theta s).
Proof.
  unfold forward_grads, forward_loss, RealNVP.iteration. fields.
  destruct (p_sample L RealNVP.num_samples (gen s)) as [x g].
  unfold backprop_and_step, log_loss. fields.
  destruct (adam_step L (opt s)
              (backward L (forward_kld L (theta s) (training s) x)
                 (zero_grad L (grad s))) (theta s)) as [p o].
  fields. split_tests; fields; repeat split; reflexivity.
Qed.

Lemma forward_draws (it : Z) (s : notebook T) :
  drawn (RealNVP.iteration L zz it s) =
  drawn s ++
  (if (it + 1) mod RealNVP.show_iter =? 0
   then [pcolormesh (exp_nan_to_zero L
           (log_prob L (theta (RealNVP.iteration L zz it s)) (training s) zz))]
   else []).
Proof.
  unfold RealNVP.iteration. fields.
  destruct (p_sample L RealNVP.num_samples (gen s)) as [x g].
  unfold backprop_and_step, log_loss. fields.
  destruct (adam_step L (opt s)
              (backward L (forward_kld L (theta s) (training s) x)
                 (zero_grad L (grad s))) (theta s)) as [p o].
  fields. split_tests; fields; [reflexivity | now rewrite app_nil_r].
Qed.

Lemma forward_writes_nothing (it : Z) (s : notebook T) :
  disk (RealNVP.iteration L zz it s) = disk s.
Proof. step_fields; reflexivity. Qed.

Lemma forward_rest (it : Z) (s : notebook T) :
  last_epoch (RealNVP.iteration L zz it s) = last_epoch s /\
  training (RealNVP.iteration L zz it s) = training s /\
  gen (RealNVP.iteration L zz it s) = snd (p_sample L RealNVP.num_samples (gen s)).
Proof.
  unfold RealNVP.iteration. fields.
  destruct (p_sample L RealNVP.num_samples (gen s)) as [x g].
  step_fields; repeat split; reflexivity.
Qed.

(** Reverse KLD: the guarded update. *)
Lemma reverse_skips (it : Z) (s : notebook T) :
  non_finite (item L (reverse_loss L s)) = true ->
  theta (NSF.iteration L zz it s) = theta s /\
  opt_steps (NSF.iteration L zz it s) = opt_steps s /\
  grad (NSF.iteration L zz it s) = zero_grad L (grad s) /\
  opt (NSF.iteration L zz it s) =
    cosine_annealing L NSF.max_iter (last_epoch s + 1) (opt s).
Proof.
  unfold non_finite, reverse_loss, NSF.iteration. fields.
  destruct (reverse_kld L (theta s) (training s) NSF.num_samples (gen s))
    as [l g].
  fields. intros ->. cbn [negb].
  step_fields; repeat split; reflexivity.
Qed.

Lemma reverse_steps (it : Z) (s : notebook T) :
  non_finite (item L (reverse_loss L s)) = false ->
  opt_steps (NSF.iteration L zz it s) = opt_steps s + 1 /\
  grad (NSF.iteration L zz it s) = reverse_grads L s /\
  theta (NSF.iteration L zz it s) =
    fst (adam_step L (opt s) (reverse_grads L s) (theta s)) /\
  opt (NSF.iteration L zz it s) =
    cosine_annealing L NSF.max_iter (last_epoch s + 1)
      (snd (adam_step L (opt s) (reverse_grads L s) (theta s))).
Proof.
  unfold non_finite, reverse_grads, reverse_loss, NSF.iteration. fields.
  destruct (reverse_kld L (theta s) (training s) NSF.num_samples (gen s))
    as [l g].
  fields. intros ->. cbn [negb].
  unfold backprop_and_step, log_loss, NSF.scheduler_step. fields.
  destruct (adam_step L (opt s) (backward L l (zero_grad L (grad s))) (theta s))
    as [p o].
  fields. split_tests; fields; repeat split; reflexivity.
Qed.

Lemma reverse_schedules (it : Z) (s : notebook T) :
  last_epoch (NSF.iteration L zz it s) = last_epoch s + 1.
Proof. step_fields; reflexivity. Qed.

Lemma reverse_draws (it : Z) (s : notebook T) :
  drawn (NSF.iteration L zz it s) =
  drawn s ++
  (if (it + 1) mod NSF.show_iter =? 0
   then [pcolormesh (exp_nan_to_zero L
           (log_prob L (theta (NSF.iteration L zz it s)) false zz))]
   else []).
Proof.
  step_fields; try reflexivity; now rewrite app_nil_r.
Qed.

Lemma reverse_writes (it : Z) (s : notebook T) :
  disk (NSF.iteration L zz it s) =
  disk s ++
  (if (it + 1) mod NSF.show_iter =? 0
   then [(NSF.checkpoint_path (it + 1),
          state_dict (theta (NSF.iteration L zz it s)))]
   else []).
Proof.
  step_fields; try reflexivity; now rewrite app_nil_r.
Qed.

Lemma reverse_rest (it : Z) (s : notebook T) :
  gen (NSF.iteration L zz it s) =
    snd (reverse_kld L (theta s) (training s) NSF.num_samples (gen s)) /\
  training (NSF.iteration L zz it s) =
    (if (it + 1) mod NSF.show_iter =? 0 then true else training s) /\
  prob (NSF.iteration L zz it s) =
    (if (it + 1) mod NSF.show_iter =? 0
     then exp_nan_to_zero L (log_prob L (theta (NSF.iteration L zz it s)) false zz)
     else prob s).
Proof.
  unfold NSF.iteration. fields.
  destruct (reverse_kld L (theta s) (training s) NSF.num_samples (gen s))
    as [l g].
  step_fields; repeat split; reflexivity.
Qed.

End Rounds.

(** ** Drawing and writing leave the other variables alone *)

Section Frames.
Context {T : carriers}.

Lemma draw_drawn (s : notebook T) (a : artist) : drawn (draw s a) = drawn s ++ [a].
Proof. reflexivity. Qed.

Lemma draw_loss_hist (s : notebook T) (a : artist) : loss_hist (draw s a) = loss_hist s.
Proof. reflexivity. Qed.

Lemma draw_last_epoch (s : notebook T) (a : artist) : last_epoch (draw s a) = last_epoch s.
Proof. reflexivity. Qed.

Lemma draw_disk (s : notebook T) (a : artist) : disk (draw s a) = disk s.
Proof. reflexivity. Qed.

Lemma draw_prob (s : notebook T) (a : artist) : prob (draw s a) = prob s.
Proof. reflexivity. Qed.

Lemma draw_theta (s : notebook T) (a : artist) : theta (draw s a) = theta s.
Proof. reflexivity. Qed.

Lemma heat_maps_plot (ys : list float) : heat_maps [plot ys] = [].
Proof. reflexivity. Qed.

Lemma heat_maps_app (l l' : list artist) :
  heat_maps (l ++ l') = heat_maps l ++ heat_maps l'.
Proof. apply flat_map_app. Qed.

End Frames.

(** ** The training cells *)

Section Training.
Context {T : carriers}.
Variable L : library T.
Variable zz : points T.

Lemma realnvp_max_iter_nonneg : 0 <= RealNVP.max_iter.
Proof. unfold RealNVP.max_iter. lia. Qed.

Lemma nsf_max_iter_nonneg : 0 <= NSF.max_iter.
Proof. unfold NSF.max_iter. lia. Qed.

(** C4: each iteration of either loop appends exactly one value to
    [loss_hist], the loss of that iteration, whether or not the optimizer
    stepped (in the reverse-KLD loop the same value is appended on both
    sides of the finiteness test); when the training cell ends, the history
    holds [max_iter] values. *)
Theorem loss_history_one_per_iteration (s : notebook T) :
  (forall it t,
      loss_hist (RealNVP.iteration L zz it t) =
      loss_hist t ++ [item L (forward_loss L t)]) /\
  (forall it t,
      loss_hist (NSF.iteration L zz it t) =
      loss_hist t ++ [item L (reverse_loss L t)]) /\
  Z.of_nat (List.length (loss_hist (RealNVP.train L zz s))) = RealNVP.max_iter /\
  Z.of_nat (List.length (loss_hist (NSF.train L zz s))) = NSF.max_iter.
Proof.
  split; [exact (forward_logs L zz)|].
  split; [exact (reverse_logs L zz)|].
  split.
  - unfold RealNVP.train. cbv zeta.
    rewrite draw_loss_hist, loop_loss_hist;
      [ reflexivity
      | intros it t; eexists; apply forward_logs
      | exact realnvp_max_iter_nonneg ].
  - unfold NSF.train. cbv zeta.
    rewrite draw_loss_hist, loop_loss_hist;
      [ reflexivity
      | intros it t; eexists; apply reverse_logs
      | exact nsf_max_iter_nonneg ].
Qed.

(** C9: [scheduler.step()] runs once in every iteration of the reverse-KLD
    loop, also in one whose loss is not finite and whose optimizer step is
    skipped; the scheduler, created at epoch 0, stands at epoch [max_iter]
    when the training cell ends. *)
Theorem scheduler_steps_every_iteration (s : notebook T) :
  (forall it t,
      last_epoch (NSF.iteration L zz it t) = last_epoch t + 1 /\
      opt_steps (NSF.iteration L zz it t) =
        opt_steps t + (if non_finite (item L (reverse_loss L t)) then 0 else 1)) /\
  last_epoch (NSF.train L zz s) = NSF.max_iter.
Proof.
  split.
  - intros it t. split; [apply reverse_schedules|].
    destruct (non_finite (item L (reverse_loss L t))) eqn:E.
    + rewrite (proj1 (proj2 (reverse_skips L zz it t E))). lia.
    + apply (reverse_steps L zz it t E).
  - unfold NSF.train. cbv zeta.
    rewrite draw_last_epoch, loop_last_epoch;
      [ reflexivity | apply reverse_schedules | exact nsf_max_iter_nonneg ].
Qed.

Lemma exp_nan_to_zero_entries (lp : tensor) :
  exp_nan_to_zero L lp =
  map (fun l => if torch.isnan (torch_exp L l) then 0%float else torch_exp L l) lp.
Proof.
  unfold exp_nan_to_zero, torch.masked_fill_nan. now rewrite map_map.
Qed.

(** C6: an iteration of either loop evaluates the model's log-density on
    the grid [zz] and shows the density, the exponential of each value
    (zero where that is NaN), as a heat map exactly when [it + 1] is a
    multiple of [show_iter], and draws nothing otherwise; over the whole
    training cell that makes [max_iter / show_iter] heat maps (5 and 20). *)
Theorem density_shown_every_show_iter (s : notebook T) :
  (forall it t,
      drawn (RealNVP.iteration L zz it t) =
      drawn t ++
      (if (it + 1) mod RealNVP.show_iter =? 0
       then [pcolormesh
               (map (fun l => if torch.isnan (torch_exp L l) then 0%float
                              else torch_exp L l)
                  (log_prob L (theta (RealNVP.iteration L zz it t)) (training t) zz))]
       else [])) /\
  (forall it t,
      drawn (NSF.iteration L zz it t) =
      drawn t ++
      (if (it + 1) mod NSF.show_iter =? 0
       then [pcolormesh
               (map (fun l => if torch.isnan (torch_exp L l) then 0%float
                              else torch_exp L l)
                  (log_prob L (theta (NSF.iteration L zz it t)) false zz))]
       else [])) /\
  List.length (heat_maps (drawn (RealNVP.train L zz s))) =
    (List.length (heat_maps (drawn s)) + 5)%nat /\
  List.length (heat_maps (drawn (NSF.train L zz s))) =
    (List.length (heat_maps (drawn s)) + 20)%nat.
Proof.
  split; [intros it t; rewrite <- exp_nan_to_zero_entries; apply forward_draws|].
  split; [intros it t; rewrite <- exp_nan_to_zero_entries; apply reverse_draws|].
  split; apply Nat2Z.inj.
  - unfold RealNVP.train. cbv zeta.
    rewrite draw_drawn, heat_maps_app, heat_maps_plot, length_app, !Nat2Z.inj_add.
    rewrite (loop_heat_maps _ RealNVP.show_iter);
      [ fields; change (RealNVP.max_iter / RealNVP.show_iter) with 5; simpl; lia
      | reflexivity
      | intros it t; eexists; apply forward_draws
      | exact realnvp_max_iter_nonneg ].
  - unfold NSF.train. cbv zeta.
    rewrite draw_drawn, heat_maps_app, heat_maps_plot, length_app, !Nat2Z.inj_add.
    rewrite (loop_heat_maps _ NSF.show_iter);
      [ fields; change (NSF.max_iter / NSF.show_iter) with 20; simpl; lia
      | reflexivity
      | intros it t; eexists; apply reverse_draws
      | exact nsf_max_iter_nonneg ].
Qed.

End Training.

(** ** The optimizer step, checkpoints and batches *)

Section Guards.
Context {T : carriers}.
Variable L : library T.
Variable zz : points T.

Lemma realnvp_train_disk (s : notebook T) : disk (RealNVP.train L zz s) = disk s.
Proof.
  unfold RealNVP.train. cbv zeta.
  rewrite draw_disk, loop_disk_untouched; [reflexivity|].
  exact (forward_writes_nothing L zz).
Qed.

(** C1, as the code has it: the reverse-KLD loop back-propagates and steps
    the optimizer exactly when the loss is finite, and leaves parameters,
    step count and (cleared) gradients alone when it is NaN or infinite;
    the forward-KLD loop has no such test and back-propagates and steps in
    every iteration. *)
Theorem optimizer_step_guard (it : Z) (s : notebook T) :
  opt_steps (NSF.iteration L zz it s) =
    opt_steps s + (if non_finite (item L (reverse_loss L s)) then 0 else 1) /\
  theta (NSF.iteration L zz it s) =
    (if non_finite (item L (reverse_loss L s)) then theta s
     else fst (adam_step L (opt s) (reverse_grads L s) (theta s))) /\
  grad (NSF.iteration L zz it s) =
    (if non_finite (item L (reverse_loss L s)) then zero_grad L (grad s)
     else reverse_grads L s) /\
  opt_steps (RealNVP.iteration L zz it s) = opt_steps s + 1 /\
  grad (RealNVP.iteration L zz it s) = forward_grads L s /\
  (theta (RealNVP.iteration L zz it s), opt (RealNVP.iteration L zz it s)) =
    adam_step L (opt s) (forward_grads L s) (theta s).
Proof.
  destruct (non_finite (item L (reverse_loss L s))) eqn:E.
  - destruct (reverse_skips L zz it s E) as (Ht & Hn & Hg & _).
    rewrite Ht, Hn, Hg, Z.add_0_r.
    repeat (split; [reflexivity|]). apply forward_steps.
  - destruct (reverse_steps L zz it s E) as (Hn & Hg & Ht & _).
    rewrite Ht, Hn, Hg.
    repeat (split; [reflexivity|]). apply forward_steps.
Qed.

(** C2, as the code has it: the reverse-KLD loop writes the model's
    parameters to ['model_%05i.pt' % (it + 1)] exactly in the iterations
    where [it + 1] is a multiple of [show_iter] (twenty files over the
    training cell, [model_00500.pt] to [model_10000.pt]); the forward-KLD
    loop writes no file in any iteration. *)
Theorem checkpoints_in_reverse_loop_only (s : notebook T) :
  (forall it t,
      disk (NSF.iteration L zz it t) =
      disk t ++
      (if (it + 1) mod NSF.show_iter =? 0
       then [(NSF.checkpoint_path (it + 1),
              state_dict (theta (NSF.iteration L zz it t)))]
       else [])) /\
  paths (disk (NSF.train L zz s)) =
    paths (disk s) ++
    map (fun k => NSF.checkpoint_path (NSF.show_iter * k)) (map Z.succ (range 20)) /\
  (forall it t, disk (RealNVP.iteration L zz it t) = disk t) /\
  disk (RealNVP.train L zz s) = disk s.
Proof.
  split; [exact (reverse_writes L zz)|]. split; [|split].
  - unfold NSF.train. cbv zeta.
    rewrite draw_disk, (loop_paths _ NSF.show_iter);
      [ reflexivity
      | reflexivity
      | intros it t; eexists; apply reverse_writes
      | exact nsf_max_iter_nonneg ].
  - exact (forward_writes_nothing L zz).
  - apply realnvp_train_disk.
Qed.


(** C10, as the code has it: an iteration of the reverse-KLD loop whose
    loss is NaN or infinite leaves the model parameters and the optimizer's
    step count unchanged and appends the loss to [loss_hist]; it also clears
    the gradient buffers, lets [reverse_kld] advance the random generator,
    steps the scheduler (which resets the learning rate), and, when
    [it + 1] is a multiple of [show_iter], shows the density and writes a
    checkpoint of the unchanged parameters. *)
Theorem non_finite_iteration (it : Z) (s : notebook T) :
  non_finite (item L (reverse_loss L s)) = true ->
  theta (NSF.iteration L zz it s) = theta s /\
  opt_steps (NSF.iteration L zz it s) = opt_steps s /\
  loss_hist (NSF.iteration L zz it s) = loss_hist s ++ [item L (reverse_loss L s)] /\
  grad (NSF.iteration L zz it s) = zero_grad L (grad s) /\
  gen (NSF.iteration L zz it s) =
    snd (reverse_kld L (theta s) (training s) NSF.num_samples (gen s)) /\
  last_epoch (NSF.iteration L zz it s) = last_epoch s + 1 /\
  opt (NSF.iteration L zz it s) =
    cosine_annealing L NSF.max_iter (last_epoch s + 1) (opt s) /\
  drawn (NSF.iteration L zz it s) =
    drawn s ++
    (if (it + 1) mod NSF.show_iter =? 0
     then [pcolormesh (exp_nan_to_zero L (log_prob L (theta s) false zz))]
     else []) /\
  disk (NSF.iteration L zz it s) =
    disk s ++
    (if (it + 1) mod NSF.show_iter =? 0
     then [(NSF.checkpoint_path (it + 1), state_dict (theta s))]
     else []).
Proof.
  intros E.
  destruct (reverse_skips L zz it s E) as (Ht & Hn & Hg & Ho).
  repeat split; try assumption.
  - apply reverse_logs.
  - apply reverse_rest.
  - apply reverse_schedules.
  - rewrite reverse_draws, Ht. reflexivity.
  - rewrite reverse_writes, Ht. reflexivity.
Qed.

End Guards.

(** ** Worked runs on the sample library *)

Example checkpoint_names :
  map NSF.checkpoint_path [500; 9500; 10000] =
  ["model_00500.pt"; "model_09500.pt"; "model_10000.pt"]%string.
Proof. reflexivity. Qed.

Example first_masks :
  map RealNVP.b_mask (firstn 4 RealNVP.flows) = [[0; 1]; [1; 0]; [0; 1]; [1; 0]].
Proof. reflexivity. Qed.

Example finite_loss_steps :
  opt_steps (NSF.iteration Sample.lib Sample.zz 0 (Sample.fresh 1)) = 1 /\
  opt_steps (NSF.iteration Sample.lib Sample.zz 0 (Sample.fresh infinity)) = 0 /\
  opt_steps (NSF.iteration Sample.lib Sample.zz 0 (Sample.fresh nan)) = 0.
Proof. vm_compute. repeat split; reflexivity. Qed.

(** C1 fails on the forward-KLD loop: a NaN loss does not hold the
    optimizer back. *)
Lemma forward_loop_steps_on_nan :
  non_finite (item Sample.lib (forward_loss Sample.lib (Sample.fresh nan))) = true /\
  loss_hist (RealNVP.iteration Sample.lib Sample.zz 0 (Sample.fresh nan)) = [nan] /\
  opt_steps (Sample.fresh nan) = 0 /\
  opt_steps (RealNVP.iteration Sample.lib Sample.zz 0 (Sample.fresh nan)) = 1.
Proof. vm_compute. repeat split; reflexivity. Qed.

(** C2 fails on the forward-KLD loop: iteration 1999 is a show iteration
    and writes nothing, and neither does the whole training cell. *)
Lemma forward_loop_writes_no_checkpoint :
  (1999 + 1) mod RealNVP.show_iter = 0 /\
  disk (RealNVP.iteration Sample.lib Sample.zz 1999 (Sample.fresh 0)) = [] /\
  disk (RealNVP.train Sample.lib Sample.zz (Sample.fresh 0)) = [].
Proof.
  split; [reflexivity|]. split; [vm_compute; reflexivity|].
  now rewrite realnvp_train_disk.
Qed.

(** C10 fails in its second half: after an iteration with a NaN loss the
    notebook differs from the one that only logged the loss; the scheduler
    has moved to the next epoch. *)
Lemma non_finite_iteration_moves_scheduler :
  non_finite (item Sample.lib (reverse_loss Sample.lib (Sample.fresh nan))) = true /\
  last_epoch (NSF.iteration Sample.lib Sample.zz 0 (Sample.fresh nan)) = 1 /\
  last_epoch (log_loss Sample.lib (Sample.fresh nan)
                (reverse_loss Sample.lib (Sample.fresh nan))) = 0 /\
  NSF.iteration Sample.lib Sample.zz 0 (Sample.fresh nan) <>
  log_loss Sample.lib (Sample.fresh nan) (reverse_loss Sample.lib (Sample.fresh nan)).
Proof.
  repeat split; try (vm_compute; reflexivity).
  intros H. apply (f_equal last_epoch) in H. vm_compute in H. discriminate H.
Qed.

Lemma non_finite_iteration_witness :
  non_finite (item Sample.lib (reverse_loss Sample.lib (Sample.fresh nan))) = true /\
  theta (NSF.iteration Sample.lib Sample.zz 499 (Sample.fresh nan)) =
    theta (Sample.fresh nan).
Proof.
  split; [reflexivity|].
  apply (non_finite_iteration Sample.lib Sample.zz 499 (Sample.fresh nan)).
  reflexivity.
Defined.


(** The two loops tell the two sources apart.  Moving the base distribution
    changes the reverse-KLD loss and leaves the forward-KLD loss alone;
    replacing the target's sampler changes the forward-KLD loss and leaves
    the reverse-KLD iteration alone. *)
Example base_distribution_feeds_reverse_loss :
  loss_hist (NSF.iteration (Sample.lib_of_flow 0) Sample.zz 0 (Sample.fresh 1)) =
    [0.5%float] /\
  loss_hist (NSF.iteration (Sample.lib_of_flow 1) Sample.zz 0 (Sample.fresh 1)) =
    [2%float] /\
  loss_hist (RealNVP.iteration (Sample.lib_of_flow 0) Sample.zz 0 (Sample.fresh 1)) =
  loss_hist (RealNVP.iteration (Sample.lib_of_flow 1) Sample.zz 0 (Sample.fresh 1)).
Proof. vm_compute. repeat split; reflexivity. Qed.

Example target_sampler_feeds_forward_loss :
  loss_hist (RealNVP.iteration (Sample.lib_of_flow 0) Sample.zz 0 (Sample.fresh 1)) =
    [0%float] /\
  loss_hist (RealNVP.iteration
               (with_p_sample (Sample.lib_of_flow 0) (fun n r => ((n, 3%float), r)))
               Sample.zz 0 (Sample.fresh 1)) = [2%float] /\
  NSF.iteration (with_p_sample (Sample.lib_of_flow 0) (fun n r => ((n, 3%float), r)))
    Sample.zz 0 (Sample.fresh 1) =
  NSF.iteration (Sample.lib_of_flow 0) Sample.zz 0 (Sample.fresh 1).
Proof. vm_compute. repeat split; reflexivity. Qed.

(** ** The image target of the Real NVP notebook *)

Section ImageTarget.
Context {px : Type}.
Variable one_minus : px -> px.

Lemma channel0_row_nth (row : list (list px)) (cs : list px) :
  RealNVP.channel0_row row = Some cs ->
  forall j, nth_error cs j =
            match nth_error row j with
            | Some p => nth_error p 0
            | None => None
            end.
Proof.
  revert cs. induction row as [|p r IH]; intros cs H j; simpl in H.
  - injection H as <-. now destruct j.
  - destruct p as [|c p']; [discriminate|]. simpl in H.
    destruct (RealNVP.channel0_row r) as [cs'|]; [|discriminate].
    injection H as <-. destruct j as [|j]; [reflexivity|].
    simpl. now apply IH.
Qed.

Lemma channel0_at (a : list (list (list px))) (c : list (list px)) :
  RealNVP.channel0 a = Some c ->
  List.length c = List.length a /\
  forall i j, RealNVP.at2 c i j = RealNVP.at3 a i j.
Proof.
  revert c. induction a as [|row r IH]; intros c H; simpl in H.
  - injection H as <-. split; [reflexivity|]. intros [|i] j; reflexivity.
  - destruct (RealNVP.channel0_row row) as [cs|] eqn:Hrow; [|discriminate].
    destruct (RealNVP.channel0 r) as [rs|]; [|discriminate].
    injection H as <-. destruct (IH rs eq_refl) as [Hlen Hat].
    split; [simpl; now rewrite Hlen|].
    intros [|i] j.
    + unfold RealNVP.at2, RealNVP.at3. simpl. now apply channel0_row_nth.
    + apply Hat.
Qed.

Lemma channel0_row_total (row : list (list px)) :
  Forall (fun p => p <> []) row -> exists cs, RealNVP.channel0_row row = Some cs.
Proof.
  induction 1 as [|p r Hp _ [cs IH]]; simpl.
  - now exists [].
  - destruct p as [|c p']; [contradiction|]. simpl. rewrite IH. now eexists.
Qed.

Lemma channel0_total (a : list (list (list px))) :
  RealNVP.has_channels a -> exists c, RealNVP.channel0 a = Some c.
Proof.
  induction 1 as [|row r Hrow _ [c IH]]; simpl.
  - now exists [].
  - destruct (channel0_row_total row Hrow) as [cs ->]. rewrite IH. now eexists.
Qed.

Lemma at2_map (c : list (list px)) (i j : nat) :
  RealNVP.at2 (map (map one_minus) c) i j = option_map one_minus (RealNVP.at2 c i j).
Proof.
  unfold RealNVP.at2. rewrite nth_error_map.
  destruct (nth_error c i) as [row|]; simpl; [|reflexivity].
  now rewrite nth_error_map.
Qed.

(** C7: the array handed to [ImagePrior] is two-dimensional and is one
    minus the first channel of the decoded image: whenever the target is
    built, the decoded array is M x N x C, the target's image has its M
    rows, and [img[i, j] = 1 - decoded[i, j, 0]] at every position; the
    target is built for every M x N x C array whose pixels have a channel. *)
Theorem image_target_is_one_minus_first_channel (a : list (list (list px))) :
  RealNVP.has_channels a ->
  (exists p, RealNVP.target one_minus (RealNVP.dim3 a) = Some p) /\
  (forall decoded p,
      RealNVP.target one_minus decoded = Some p ->
      RealNVP.img one_minus decoded = Some (RealNVP.image p) /\
      exists a', decoded = RealNVP.dim3 a' /\
                 List.length (RealNVP.image p) = List.length a' /\
                 forall i j, RealNVP.at2 (RealNVP.image p) i j =
                             option_map one_minus (RealNVP.at3 a' i j)).
Proof.
  intros Ha. split.
  - destruct (channel0_total a Ha) as [c Hc].
    exists (RealNVP.Build_ImagePrior px (map (map one_minus) c)).
    unfold RealNVP.target, RealNVP.img. simpl. now rewrite Hc.
  - intros decoded p H. unfold RealNVP.target in H.
    destruct (RealNVP.img one_minus decoded) as [m|] eqn:Hm; [|discriminate].
    injection H as <-. split; [reflexivity|]. simpl.
    unfold RealNVP.img in Hm.
    destruct decoded as [a2|a3]; simpl in Hm; [discriminate|].
    destruct (RealNVP.channel0 a3) as [c|] eqn:Hc; [|discriminate].
    injection Hm as <-. destruct (channel0_at a3 c Hc) as [Hlen Hat].
    exists a3. split; [reflexivity|]. split; [now rewrite length_map|].
    intros i j. now rewrite at2_map, Hat.
Qed.

End ImageTarget.

Lemma image_target_witness :
  RealNVP.has_channels [[[0.25; 0.5; 1]; [1; 1; 1]]]%float /\
  exists p, RealNVP.target (fun x => 1 - x)%float
              (RealNVP.dim3 [[[0.25; 0.5; 1]; [1; 1; 1]]]%float) = Some p.
Proof.
  assert (H : RealNVP.has_channels [[[0.25; 0.5; 1]; [1; 1; 1]]]%float)
    by (repeat constructor; discriminate).
  split; [exact H|].
  exact (proj1 (image_target_is_one_minus_first_channel
                  (fun x => 1 - x)%float _ H)).
Defined.

(** ** What the cells render *)

Lemma nsf_last_round : range NSF.max_iter = range 9999 ++ [9999].
Proof. apply (range_succ 9999). lia. Qed.

Section Rendering.
Context {T : carriers}.
Variable L : library T.
Variable zz : points T.

Lemma exp_nan_to_zero_nth (lp : tensor) (i : nat) :
  nth_error (exp_nan_to_zero L lp) i =
  option_map (fun l => if torch.isnan (torch_exp L l) then 0%float else torch_exp L l)
    (nth_error lp i).
Proof.
  unfold exp_nan_to_zero, torch.masked_fill_nan.
  rewrite !nth_error_map. now destruct (nth_error lp i).
Qed.

(** After the training cell, [prob] is the grid of the last show iteration,
    which is the last iteration. *)
Lemma nsf_prob_after_training (s : notebook T) :
  prob (NSF.train L zz s) =
  exp_nan_to_zero L (log_prob L (theta (NSF.train L zz s)) false zz).
Proof.
  unfold NSF.train. cbv zeta.
  rewrite draw_prob, draw_theta, nsf_last_round, for_in_snoc.
  now rewrite (proj2 (proj2 (reverse_rest L zz 9999 _))).
Qed.

Lemma sphere_draws (s : notebook T) :
  option_map drawn (NSF.sphere L s) =
  option_map (fun v => drawn s ++ [plot_surface v]) (normalise L (prob s)).
Proof. unfold NSF.sphere. now destruct (normalise L (prob s)). Qed.

Lemma surfaces_draw (s : notebook T) :
  option_map drawn (NSF.surfaces L zz s) =
  match normalise L (exp_nan_to_zero L (target_log_prob L zz)),
        normalise L (exp_nan_to_zero L (log_prob L (theta s) (training s) zz)) with
  | Some v, Some w => Some (drawn s ++ [plot_surface v; plot_surface w])
  | _, _ => None
  end.
Proof.
  unfold NSF.surfaces. fields.
  destruct (normalise L (exp_nan_to_zero L (target_log_prob L zz))); [|reflexivity].
  fields.
  destruct (normalise L (exp_nan_to_zero L (log_prob L (theta s) (training s) zz)));
    [|reflexivity].
  fields. simpl. now rewrite <- app_assoc.
Qed.

(** C3, as the code has it: every density the notebooks render, except the
    target ("prior") plot of the Real NVP notebook, comes from the
    log-density on the grid [zz] by exponentiating entry by entry and
    replacing every NaN by zero: an entry is 0 when [exp(log_prob)] is NaN
    and [exp(log_prob)] otherwise, so an infinite exponential is kept.  The
    heat maps show that grid; the 3-D surfaces show it divided by its
    maximum.  The Real NVP target plot shows [exp(log_prob)] as it is. *)
Theorem rendered_densities (s : notebook T) :
  (forall lp i,
      nth_error (exp_nan_to_zero L lp) i =
      option_map (fun l => if torch.isnan (torch_exp L l) then 0%float
                           else torch_exp L l) (nth_error lp i)) /\
  (forall p, normalise L p =
             option_map (fun m => map (fun x => torch_div L x m) p) (torch.max p)) /\
  drawn (RealNVP.plot_prior_and_posterior L zz s) =
    drawn s ++
    [pcolormesh (map (torch_exp L) (target_log_prob L zz));
     pcolormesh (exp_nan_to_zero L (log_prob L (theta s) (training s) zz))] /\
  (forall it,
      drawn (RealNVP.iteration L zz it s) =
      drawn s ++
      (if (it + 1) mod RealNVP.show_iter =? 0
       then [pcolormesh (exp_nan_to_zero L
               (log_prob L (theta (RealNVP.iteration L zz it s)) (training s) zz))]
       else [])) /\
  drawn (RealNVP.plot_learned L zz s) =
    drawn s ++
    [pcolormesh (exp_nan_to_zero L (log_prob L (theta s) (training s) zz))] /\
  drawn (NSF.plot_target L zz s) =
    drawn s ++ [pcolormesh (exp_nan_to_zero L (target_log_prob L zz))] /\
  drawn (NSF.plot_model L zz s) =
    drawn s ++
    [pcolormesh (exp_nan_to_zero L (log_prob L (theta s) (training s) zz))] /\
  (forall it,
      drawn (NSF.iteration L zz it s) =
      drawn s ++
      (if (it + 1) mod NSF.show_iter =? 0
       then [pcolormesh (exp_nan_to_zero L
               (log_prob L (theta (NSF.iteration L zz it s)) false zz))]
       else [])) /\
  option_map drawn (NSF.sphere L (NSF.train L zz s)) =
    option_map (fun v => drawn (NSF.train L zz s) ++ [plot_surface v])
      (normalise L
         (exp_nan_to_zero L (log_prob L (theta (NSF.train L zz s)) false zz))) /\
  drawn (NSF.heatmaps L zz s) =
    drawn s ++
    [pcolormesh (exp_nan_to_zero L (target_log_prob L zz));
     pcolormesh (exp_nan_to_zero L (log_prob L (theta s) (training s) zz))] /\
  option_map drawn (NSF.surfaces L zz s) =
    match normalise L (exp_nan_to_zero L (target_log_prob L zz)),
          normalise L (exp_nan_to_zero L (log_prob L (theta s) (training s) zz)) with
    | Some v, Some w => Some (drawn s ++ [plot_surface v; plot_surface w])
    | _, _ => None
    end.
Proof.
  split; [exact exp_nan_to_zero_nth|].
  split; [intros p; unfold normalise; now destruct (torch.max p)|].
  split; [unfold RealNVP.plot_prior_and_posterior; fields; simpl;
          now rewrite <- app_assoc|].
  split; [intros it; apply forward_draws|].
  split; [reflexivity|].
  split; [reflexivity|].
  split; [reflexivity|].
  split; [intros it; apply reverse_draws|].
  split; [rewrite sphere_draws, nsf_prob_after_training; reflexivity|].
  split; [unfold NSF.heatmaps; fields; simpl; now rewrite <- app_assoc|].
  apply surfaces_draw.
Qed.

End Rendering.

(** C3 fails on infinite values: a grid entry whose exponential is
    infinite is not finite, and the "Plot model" cell renders it as it is,
    not as zero. *)
Lemma infinite_density_is_not_zeroed :
  is_finite (torch_exp Sample.lib infinity) = false /\
  torch.isnan (torch_exp Sample.lib infinity) = false /\
  exp_nan_to_zero Sample.lib [infinity; neg_infinity; nan; 0%float] =
    [infinity; 0%float; 0%float; 1%float] /\
  drawn (NSF.plot_model (Sample.reporting [0%float; infinity; neg_infinity])
           Sample.zz (Sample.fresh 0)) =
    [pcolormesh [1%float; infinity; 0%float]].
Proof. vm_compute. repeat split; reflexivity. Qed.

(** * Further properties of the notebooks *)

(** ** Checkpoint names *)

Lemma zeros_succ (k : nat) :
  String.concat "" (repeat "0"%string (S k)) =
  String "0" (String.concat "" (repeat "0"%string k)).
Proof. destruct k; reflexivity. Qed.

Lemma zeros_length (k : nat) :
  String.length (String.concat "" (repeat "0"%string k)) = k.
Proof.
  induction k as [|k IH]; [reflexivity|].
  rewrite zeros_succ. simpl. now rewrite IH.
Qed.

Lemma append_length (s t : string) :
  String.length (s ++ t) = (String.length s + String.length t)%nat.
Proof. induction s as [|c s IH]; simpl; [reflexivity | now rewrite IH]. Qed.

Lemma zfill_length (w : nat) (s : string) :
  (w <= String.length (zfill w s))%nat.
Proof. unfold zfill. rewrite append_length, zeros_length. lia. Qed.

Lemma zeros_parse (k : nat) (s : string) :
  NilEmpty.uint_of_string (String.concat "" (repeat "0"%string k) ++ s) =
  option_map (Nat.iter k Decimal.D0) (NilEmpty.uint_of_string s).
Proof.
  induction k as [|k IH].
  - simpl. now destruct (NilEmpty.uint_of_string s).
  - rewrite zeros_succ. simpl String.append. simpl NilEmpty.uint_of_string.
    rewrite IH. now destruct (NilEmpty.uint_of_string s).
Qed.

Lemma of_uint_leading_zeros (k : nat) (d : Decimal.uint) :
  Z.of_uint (Nat.iter k Decimal.D0 d) = Z.of_uint d.
Proof. induction k as [|k IH]; [reflexivity | exact IH]. Qed.

Lemma digits_parse (d : Decimal.uint) :
  exists d', NilEmpty.uint_of_string (NilZero.string_of_uint d) = Some d' /\
             Z.of_uint d' = Z.of_uint d.
Proof.
  destruct d; try (eexists; split; [apply (NilEmpty.usu (_ d))|reflexivity]).
  exists (Decimal.D0 Decimal.Nil). split; reflexivity.
Qed.

Lemma zfill_parse (w : nat) (d : Decimal.uint) :
  exists d', NilEmpty.uint_of_string (zfill w (NilZero.string_of_uint d)) = Some d' /\
             Z.of_uint d' = Z.of_uint d.
Proof.
  destruct (digits_parse d) as (d0 & Hp & Hv).
  unfold zfill. rewrite zeros_parse, Hp. simpl.
  eexists. split; [reflexivity|]. now rewrite of_uint_leading_zeros.
Qed.

Lemma read_format (n : Z) : read_int (format_05i n) = Some n.
Proof.
  pose proof (DecimalZ.of_to n) as Hn.
  unfold format_05i. destruct (Z.to_int n) as [d|d].
  - destruct (zfill_parse 5 d) as (d' & Hp & Hv).
    unfold read_int. rewrite Hp. simpl in Hn. now rewrite Hv, Hn.
  - destruct (zfill_parse 4 d) as (d' & Hp & Hv).
    unfold read_int. simpl NilEmpty.uint_of_string. rewrite Hp.
    simpl. simpl in Hn. now rewrite Hv, Hn.
Qed.

Lemma append_inv_tail (a b c : string) : (a ++ c = b ++ c)%string -> a = b.
Proof.
  revert b. induction a as [|x a IH]; intros [|y b] H; simpl in H.
  - reflexivity.
  - apply (f_equal String.length) in H. simpl in H.
    rewrite append_length in H. lia.
  - apply (f_equal String.length) in H. simpl in H.
    rewrite append_length in H. lia.
  - injection H as -> H. f_equal. now apply IH.
Qed.

Lemma checkpoint_path_inj (n m : Z) :
  NSF.checkpoint_path n = NSF.checkpoint_path m -> n = m.
Proof.
  unfold NSF.checkpoint_path. intros H. simpl in H.
  injection H as H. apply append_inv_tail in H.
  apply (f_equal read_int) in H. rewrite !read_format in H. congruence.
Qed.

Lemma NoDup_map_inj {A B : Type} (f : A -> B) (l : list A) :
  (forall x y, f x = f y -> x = y) -> NoDup l -> NoDup (map f l).
Proof.
  intros Hf. induction 1 as [|x l Hx Hl IH]; simpl; constructor; [|assumption].
  intros Hin. apply in_map_iff in Hin. destruct Hin as (y & Hy & Hin).
  apply Hf in Hy. now subst.
Qed.

Lemma range_NoDup (n : Z) : NoDup (range n).
Proof.
  unfold range. apply NoDup_map_inj; [intros x y; apply Nat2Z.inj | apply seq_NoDup].
Qed.

(** X1: ['%05i' % n] can be read back: the digits (after the sign, if any)
    denote [n] again, for every integer [n]; the result never has fewer
    than five characters. *)
Theorem format_05i_reads_back (n : Z) :
  read_int (format_05i n) = Some n /\ (5 <= String.length (format_05i n))%nat.
Proof.
  split; [apply read_format|].
  unfold format_05i. destruct (Z.to_int n) as [d|d].
  - apply zfill_length.
  - pose proof (zfill_length 4 (NilZero.string_of_uint d)) as H.
    cbn [String.length]. lia.
Qed.

(** ** Whole training cells *)

Lemma realnvp_last_round : range RealNVP.max_iter = range 9999 ++ [9999].
Proof. apply (range_succ 9999). lia. Qed.

Lemma finite_losses_snoc (h : list float) (l : float) :
  finite_losses (h ++ [l]) = finite_losses h + (if non_finite l then 0 else 1).
Proof.
  unfold finite_losses. rewrite filter_app, length_app, Nat2Z.inj_add. simpl.
  now destruct (non_finite l).
Qed.

Lemma finite_losses_bounds (h : list float) :
  0 <= finite_losses h <= Z.of_nat (List.length h).
Proof.
  unfold finite_losses.
  pose proof (filter_length_le (fun x => negb (non_finite x)) h). lia.
Qed.

Section Cells.
Context {T : carriers}.
Variable L : library T.
Variable zz : points T.

Lemma draw_opt_steps (s : notebook T) (a : artist) : opt_steps (draw s a) = opt_steps s.
Proof. reflexivity. Qed.

Lemma draw_training (s : notebook T) (a : artist) : training (draw s a) = training s.
Proof. reflexivity. Qed.

(** A variable that no iteration changes is the same after the loop. *)
Lemma loop_frame {B : Type} (f : notebook T -> B)
      (body : Z -> notebook T -> notebook T) (l : list Z) (s : notebook T) :
  (forall it t, f (body it t) = f t) -> f (for_in l body s) = f s.
Proof.
  intros Hbody. unfold for_in. revert s.
  induction l as [|x l IH]; intros s; simpl; [reflexivity|].
  now rewrite IH, Hbody.
Qed.

Lemma loop_finite_steps (body : Z -> notebook T -> notebook T)
      (loss : notebook T -> float) (l : list Z) (s : notebook T) :
  (forall it t, loss_hist (body it t) = loss_hist t ++ [loss t]) ->
  (forall it t, opt_steps (body it t) =
                opt_steps t + (if non_finite (loss t) then 0 else 1)) ->
  opt_steps (for_in l body s) - finite_losses (loss_hist (for_in l body s)) =
  opt_steps s - finite_losses (loss_hist s).
Proof.
  intros Hh Hn. unfold for_in. revert s.
  induction l as [|x l IH]; intros s; simpl; [reflexivity|].
  rewrite IH, Hh, Hn, finite_losses_snoc. lia.
Qed.

Lemma loop_all_steps (body : Z -> notebook T -> notebook T)
      (n : Z) (s : notebook T) :
  (forall it t, opt_steps (body it t) = opt_steps t + 1) ->
  0 <= n ->
  opt_steps (for_in (range n) body s) = opt_steps s + n.
Proof.
  intros Hbody Hn.
  apply (for_in_range_inv body (fun k t => opt_steps t = opt_steps s + k));
    [assumption|lia|].
  intros it t _ IH. rewrite Hbody. lia.
Qed.

Lemma reverse_counts (it : Z) (t : notebook T) :
  opt_steps (NSF.iteration L zz it t) =
  opt_steps t + (if non_finite (item L (reverse_loss L t)) then 0 else 1).
Proof.
  destruct (non_finite (item L (reverse_loss L t))) eqn:E.
  - rewrite (proj1 (proj2 (reverse_skips L zz it t E))). lia.
  - apply (reverse_steps L zz it t E).
Qed.

Lemma nsf_train_paths (s : notebook T) :
  paths (disk (NSF.train L zz s)) =
  paths (disk s) ++
  map (fun k => NSF.checkpoint_path (NSF.show_iter * k)) (map Z.succ (range 20)).
Proof.
  unfold NSF.train. cbv zeta.
  rewrite draw_disk, (loop_paths _ NSF.show_iter);
    [ reflexivity
    | reflexivity
    | intros it t; eexists; apply reverse_writes
    | exact nsf_max_iter_nonneg ].
Qed.

Lemma nsf_train_length (s : notebook T) :
  Z.of_nat (List.length (loss_hist (NSF.train L zz s))) = NSF.max_iter.
Proof.
  unfold NSF.train. cbv zeta.
  rewrite draw_loss_hist, loop_loss_hist;
    [ reflexivity
    | intros it t; eexists; apply reverse_logs
    | exact nsf_max_iter_nonneg ].
Qed.

Lemma realnvp_train_length (s : notebook T) :
  Z.of_nat (List.length (loss_hist (RealNVP.train L zz s))) = RealNVP.max_iter.
Proof.
  unfold RealNVP.train. cbv zeta.
  rewrite draw_loss_hist, loop_loss_hist;
    [ reflexivity
    | intros it t; eexists; apply forward_logs
    | exact realnvp_max_iter_nonneg ].
Qed.

(** X2: two iterations never share a checkpoint name, so a run of the
    training cell on an empty directory writes twenty different files: no
    checkpoint overwrites another. *)
Theorem checkpoint_names_distinct (s : notebook T) :
  (forall n m, NSF.checkpoint_path n = NSF.checkpoint_path m -> n = m) /\
  (disk s = [] -> NoDup (paths (disk (NSF.train L zz s)))).
Proof.
  split; [exact checkpoint_path_inj|].
  intros Hd. rewrite nsf_train_paths, Hd.
  change (paths (@nil (string * file T))) with (@nil string). rewrite app_nil_l.
  apply NoDup_map_inj.
  - intros x y E. apply checkpoint_path_inj in E. unfold NSF.show_iter in E. lia.
  - apply NoDup_map_inj; [intros x y; lia | apply range_NoDup].
Qed.

(** X3: the optimizer's step count after the training cell.  In the
    reverse-KLD notebook it is the number of finite values in the loss
    history (every NaN or infinite loss is one skipped step), hence at most
    [max_iter]; in the forward-KLD notebook it is [max_iter], the length of
    the loss history, whatever the losses were. *)
Theorem optimizer_steps_after_training (s : notebook T) :
  opt_steps (NSF.train L zz s) = finite_losses (loss_hist (NSF.train L zz s)) /\
  0 <= opt_steps (NSF.train L zz s) <= NSF.max_iter /\
  opt_steps (RealNVP.train L zz s) = RealNVP.max_iter /\
  opt_steps (RealNVP.train L zz s) =
    Z.of_nat (List.length (loss_hist (RealNVP.train L zz s))).
Proof.
  assert (H1 : opt_steps (NSF.train L zz s) =
               finite_losses (loss_hist (NSF.train L zz s))).
  { unfold NSF.train. cbv zeta.
    rewrite draw_opt_steps, draw_loss_hist.
    match goal with
    | |- opt_steps (for_in _ _ ?s0) = _ => set (start := s0)
    end.
    pose proof (loop_finite_steps (NSF.iteration L zz)
                  (fun t => item L (reverse_loss L t)) (range NSF.max_iter)
                  start (reverse_logs L zz) reverse_counts) as H.
    assert (E : opt_steps start - finite_losses (loss_hist start) = 0)
      by reflexivity.
    lia. }
  assert (H2 : opt_steps (RealNVP.train L zz s) = RealNVP.max_iter).
  { unfold RealNVP.train. cbv zeta.
    rewrite draw_opt_steps, loop_all_steps;
      [ reflexivity
      | intros it t; apply (forward_steps L zz it t)
      | exact realnvp_max_iter_nonneg ]. }
  split; [exact H1|]. split; [|split; [exact H2|]].
  - pose proof (finite_losses_bounds (loss_hist (NSF.train L zz s))) as Hb.
    pose proof (nsf_train_length s) as Hl. lia.
  - pose proof (realnvp_train_length s) as Hl. lia.
Qed.

End Cells.

(** ** The notebook after training *)

Section AfterTraining.
Context {T : carriers}.
Variable L : library T.
Variable zz : points T.

Lemma forward_mode (it : Z) (t : notebook T) :
  training (RealNVP.iteration L zz it t) = training t.
Proof. apply (forward_rest L zz it t). Qed.

Lemma realnvp_train_mode (s : notebook T) :
  training (RealNVP.train L zz s) = training s.
Proof.
  unfold RealNVP.train. cbv zeta.
  rewrite draw_training, (loop_frame training); [reflexivity|].
  exact forward_mode.
Qed.

Lemma plot_learned_draws (t : notebook T) :
  drawn (RealNVP.plot_learned L zz t) =
  drawn t ++ [pcolormesh (exp_nan_to_zero L (log_prob L (theta t) (training t) zz))].
Proof. reflexivity. Qed.

(** X4: the last file written by the training cell, [model_10000.pt], holds
    the parameters the model has when the cell ends: the final checkpoint is
    the trained model. *)
Theorem last_checkpoint_is_trained_model (s : notebook T) :
  NSF.checkpoint_path NSF.max_iter = "model_10000.pt"%string /\
  exists earlier,
    disk (NSF.train L zz s) =
    earlier ++ [(NSF.checkpoint_path NSF.max_iter,
                 state_dict (theta (NSF.train L zz s)))].
Proof.
  split; [reflexivity|].
  unfold NSF.train. cbv zeta.
  rewrite draw_disk, draw_theta, nsf_last_round, for_in_snoc, reverse_writes.
  change ((9999 + 1) mod NSF.show_iter =? 0) with true. cbv iota.
  eexists. reflexivity.
Qed.

(** X5: the reverse-KLD training cell always ends with the model in
    training mode, whatever the mode before (its last iteration is a show
    iteration, which ends with [model.train()]); the forward-KLD training
    cell never changes the mode. *)
Theorem model_mode_after_training (s : notebook T) :
  training (NSF.train L zz s) = true /\
  training (RealNVP.train L zz s) = training s.
Proof.
  split; [|apply realnvp_train_mode].
  unfold NSF.train. cbv zeta.
  rewrite draw_training, nsf_last_round, for_in_snoc.
  now rewrite (proj1 (proj2 (reverse_rest L zz 9999 _))).
Qed.

(** X6: in the Real NVP notebook the cell "Plot learned distribution" shows
    the same grid again that the last training iteration showed: the drawing
    list ends with that heat map, the loss curve, and the heat map once
    more. *)
Theorem final_plot_repeats_last_training_plot (s : notebook T) :
  exists earlier,
    drawn (RealNVP.plot_learned L zz (RealNVP.train L zz s)) =
    earlier ++
    [pcolormesh (exp_nan_to_zero L
       (log_prob L (theta (RealNVP.train L zz s)) (training s) zz));
     plot (loss_hist (RealNVP.train L zz s));
     pcolormesh (exp_nan_to_zero L
       (log_prob L (theta (RealNVP.train L zz s)) (training s) zz))].
Proof.
  rewrite plot_learned_draws, realnvp_train_mode.
  unfold RealNVP.train. cbv zeta.
  rewrite draw_drawn, draw_theta, draw_loss_hist.
  rewrite realnvp_last_round, for_in_snoc, forward_draws.
  rewrite (loop_frame training); [|exact forward_mode].
  change ((9999 + 1) mod RealNVP.show_iter =? 0) with true. cbv iota.
  cbn [training set_optimizer set_loss_hist].
  rewrite <- !app_assoc. eexists. reflexivity.
Qed.

Lemma nsf_train_start (s : notebook T) (h : list float) (o : optim T) (n e : Z) :
  NSF.train L zz (set_scheduler (set_optimizer (set_loss_hist s h) o n) o e) =
  NSF.train L zz s.
Proof. reflexivity. Qed.

Lemma realnvp_train_start (s : notebook T) (h : list float) (o : optim T) (n : Z) :
  RealNVP.train L zz (set_optimizer (set_loss_hist s h) o n) = RealNVP.train L zz s.
Proof. reflexivity. Qed.

(** X7: both training cells start from an empty loss history and a fresh
    optimizer (and, in the reverse-KLD notebook, a fresh scheduler): what
    they compute does not depend on the history, the optimizer state, the
    step count or the scheduler epoch left by earlier cells; run a second
    time, the reverse-KLD cell therefore logs [max_iter] losses again and
    writes the same twenty file names once more. *)
Theorem training_cell_starts_afresh (s : notebook T) (h : list float)
        (o : optim T) (n e : Z) :
  NSF.train L zz (set_scheduler (set_optimizer (set_loss_hist s h) o n) o e) =
    NSF.train L zz s /\
  RealNVP.train L zz (set_optimizer (set_loss_hist s h) o n) =
    RealNVP.train L zz s /\
  Z.of_nat (List.length (loss_hist (NSF.train L zz (NSF.train L zz s)))) =
    NSF.max_iter /\
  paths (disk (NSF.train L zz (NSF.train L zz s))) =
    paths (disk s) ++
    map (fun k => NSF.checkpoint_path (NSF.show_iter * k)) (map Z.succ (range 20)) ++
    map (fun k => NSF.checkpoint_path (NSF.show_iter * k)) (map Z.succ (range 20)).
Proof.
  split; [apply nsf_train_start|]. split; [apply realnvp_train_start|].
  split; [apply nsf_train_length|].
  rewrite (nsf_train_paths L zz (NSF.train L zz s)), (nsf_train_paths L zz s).
  now rewrite <- app_assoc.
Qed.

End AfterTraining.

(** ** Masked grids and their maximum *)

Lemma max2_choice (a x : float) : torch.max2 a x = a \/ torch.max2 a x = x.
Proof.
  unfold torch.max2.
  destruct (torch.isnan a); [now left|].
  destruct (torch.isnan x); [now right|].
  destruct (x <? a)%float; [now left | now right].
Qed.

Lemma max2_nan_left (a x : float) :
  torch.isnan a = true -> torch.max2 a x = a.
Proof. unfold torch.max2. now intros ->. Qed.

Lemma max2_nan_right (a x : float) :
  torch.isnan x = true -> torch.isnan (torch.max2 a x) = true.
Proof.
  intros Hx. unfold torch.max2.
  destruct (torch.isnan a) eqn:Ha; [exact Ha|]. now rewrite Hx.
Qed.

Lemma fold_max2_in (r : list float) (x : float) :
  In (fold_left torch.max2 r x) (x :: r).
Proof.
  revert x. induction r as [|y r IH]; intros x; simpl; [now left|].
  destruct (IH (torch.max2 x y)) as [H|H].
  - rewrite <- H. destruct (max2_choice x y) as [E|E]; rewrite E.
    + now left.
    + right. now left.
  - right. now right.
Qed.

Lemma fold_max2_nan_start (r : list float) (x : float) :
  torch.isnan x = true -> torch.isnan (fold_left torch.max2 r x) = true.
Proof.
  revert x. induction r as [|y r IH]; intros x Hx; simpl; [exact Hx|].
  apply IH. now rewrite max2_nan_left.
Qed.

Lemma fold_max2_nan (r : list float) (x y : float) :
  In y (x :: r) -> torch.isnan y = true ->
  torch.isnan (fold_left torch.max2 r x) = true.
Proof.
  revert x. induction r as [|z r IH]; intros x Hin Hy; simpl.
  - destruct Hin as [->|[]]. exact Hy.
  - destruct Hin as [->|[->|Hin]].
    + now apply fold_max2_nan_start; rewrite max2_nan_left.
    + now apply fold_max2_nan_start, max2_nan_right.
    + apply IH; [now right | exact Hy].
Qed.

Lemma masked_not_nan (v : float) (t : tensor) :
  torch.isnan v = false ->
  Forall (fun x => torch.isnan x = false) (torch.masked_fill_nan v t).
Proof.
  intros Hv. unfold torch.masked_fill_nan. apply Forall_forall.
  intros y Hy. apply in_map_iff in Hy. destruct Hy as (x & <- & _).
  destruct (torch.isnan x) eqn:E; assumption.
Qed.

Lemma masked_fixed (v : float) (t : tensor) :
  Forall (fun x => torch.isnan x = false) t -> torch.masked_fill_nan v t = t.
Proof.
  unfold torch.masked_fill_nan.
  induction 1 as [|x t Hx _ IH]; simpl; [reflexivity|]. now rewrite Hx, IH.
Qed.

Section Masking.
Context {T : carriers}.
Variable L : library T.

Lemma exp_nan_to_zero_length (lp : tensor) :
  List.length (exp_nan_to_zero L lp) = List.length lp.
Proof. unfold exp_nan_to_zero, torch.masked_fill_nan. now rewrite !length_map. Qed.

Lemma exp_nan_to_zero_not_nan (lp : tensor) :
  Forall (fun x => torch.isnan x = false) (exp_nan_to_zero L lp).
Proof. apply masked_not_nan. reflexivity. Qed.

Lemma normalise_none (p : tensor) : normalise L p = None <-> p = [].
Proof.
  unfold normalise. destruct p as [|x r]; simpl; [tauto|].
  split; discriminate.
Qed.

(** X8: a grid that went through [prob[torch.isnan(prob)] = 0] has one entry
    per grid point and no NaN entry; applying the replacement a second time
    changes nothing, and a grid without NaN is left as it is. *)
Theorem masked_grid_has_no_nan (lp : tensor) :
  List.length (exp_nan_to_zero L lp) = List.length lp /\
  Forall (fun x => torch.isnan x = false) (exp_nan_to_zero L lp) /\
  torch.masked_fill_nan 0%float (exp_nan_to_zero L lp) = exp_nan_to_zero L lp /\
  (forall t, Forall (fun x => torch.isnan x = false) t ->
             torch.masked_fill_nan 0%float t = t).
Proof.
  split; [apply exp_nan_to_zero_length|].
  split; [apply exp_nan_to_zero_not_nan|].
  split; [apply masked_fixed, exp_nan_to_zero_not_nan|].
  intros t. apply masked_fixed.
Qed.

(** X9: [prob / torch.max(prob)] in the surface cells.  It fails exactly on
    an empty grid.  On a masked, non-empty grid the divisor is one of the
    grid's entries and is not NaN; a single NaN entry in an unmasked grid
    would make the divisor NaN. *)
Theorem surface_normaliser (lp : tensor) :
  (forall p, normalise L p = None <-> p = []) /\
  (lp <> [] ->
   exists m, torch.max (exp_nan_to_zero L lp) = Some m /\
             In m (exp_nan_to_zero L lp) /\
             torch.isnan m = false /\
             normalise L (exp_nan_to_zero L lp) =
               Some (map (fun x => torch_div L x m) (exp_nan_to_zero L lp))) /\
  (forall p x m, In x p -> torch.isnan x = true -> torch.max p = Some m ->
                 torch.isnan m = true).
Proof.
  split; [exact normalise_none|]. split.
  - intros Hne.
    pose proof (exp_nan_to_zero_not_nan lp) as Hnn.
    pose proof (exp_nan_to_zero_length lp) as Hlen.
    unfold normalise.
    destruct (exp_nan_to_zero L lp) as [|x r] eqn:E.
    + destruct lp; [contradiction | discriminate].
    + simpl. exists (fold_left torch.max2 r x).
      split; [reflexivity|].
      pose proof (fold_max2_in r x) as Hin.
      split; [exact Hin|]. split; [|reflexivity].
      rewrite Forall_forall in Hnn. now apply Hnn.
  - intros p x m Hin Hx Hm. destruct p as [|y r]; [discriminate|].
    simpl in Hm. injection Hm as <-. now apply (fold_max2_nan r y x).
Qed.

End Masking.

Lemma surface_normaliser_witness :
  [0%float; infinity] <> [] /\
  exists m, torch.max (exp_nan_to_zero Sample.lib [0%float; infinity]) = Some m /\
            torch.isnan m = false.
Proof.
  split; [discriminate|].
  destruct (proj1 (proj2 (surface_normaliser Sample.lib [0%float; infinity]))
              ltac:(discriminate)) as (m & Hm & _ & Hn & _).
  exists m. split; assumption.
Defined.

(** ** Whole notebooks *)

Section Notebooks.
Context {T : carriers}.
Variable L : library T.
Variable zz : points T.

Lemma exp_nan_to_zero_nil (lp : tensor) : exp_nan_to_zero L lp = [] <-> lp = [].
Proof.
  split; [|now intros ->].
  intros H. apply (f_equal (@List.length float)) in H.
  rewrite exp_nan_to_zero_length in H. now destruct lp.
Qed.

Lemma sphere_none (t : notebook T) : NSF.sphere L t = None <-> prob t = [].
Proof.
  unfold NSF.sphere. rewrite <- (normalise_none L (prob t)).
  destruct (normalise L (prob t)); split; congruence.
Qed.

Lemma sphere_some (t u : notebook T) :
  NSF.sphere L t = Some u ->
  theta u = theta t /\ training u = training t /\ disk u = disk t /\
  loss_hist u = loss_hist t /\
  List.length (drawn u) = S (List.length (drawn t)).
Proof.
  unfold NSF.sphere. destruct (normalise L (prob t)); [|discriminate].
  intros [= <-]. repeat split. rewrite draw_drawn, length_app. simpl. lia.
Qed.

Lemma heatmaps_frame (t : notebook T) :
  theta (NSF.heatmaps L zz t) = theta t /\
  training (NSF.heatmaps L zz t) = training t /\
  disk (NSF.heatmaps L zz t) = disk t /\
  loss_hist (NSF.heatmaps L zz t) = loss_hist t /\
  List.length (drawn (NSF.heatmaps L zz t)) = S (S (List.length (drawn t))).
Proof.
  repeat split. unfold NSF.heatmaps. fields. rewrite !length_app. simpl. lia.
Qed.

Lemma surfaces_none (t : notebook T) :
  NSF.surfaces L zz t = None <->
  target_log_prob L zz = [] \/ log_prob L (theta t) (training t) zz = [].
Proof.
  rewrite <- (exp_nan_to_zero_nil (target_log_prob L zz)).
  rewrite <- (exp_nan_to_zero_nil (log_prob L (theta t) (training t) zz)).
  rewrite <- (normalise_none L (exp_nan_to_zero L (target_log_prob L zz))).
  rewrite <- (normalise_none L
                (exp_nan_to_zero L (log_prob L (theta t) (training t) zz))).
  unfold NSF.surfaces. fields.
  destruct (normalise L (exp_nan_to_zero L (target_log_prob L zz))) as [v|];
    [|split; auto].
  fields.
  destruct (normalise L (exp_nan_to_zero L (log_prob L (theta t) (training t) zz)));
    split; try discriminate; try tauto.
  intros [H|H]; discriminate.
Qed.

Lemma surfaces_some (t u : notebook T) :
  NSF.surfaces L zz t = Some u ->
  disk u = disk t /\
  loss_hist u = loss_hist t /\
  List.length (drawn u) = S (S (List.length (drawn t))).
Proof.
  unfold NSF.surfaces. fields.
  destruct (normalise L (exp_nan_to_zero L (target_log_prob L zz))); [|discriminate].
  fields.
  destruct (normalise L (exp_nan_to_zero L (log_prob L (theta t) (training t) zz)));
    [|discriminate].
  intros [= <-]. fields. repeat split. rewrite !length_app. simpl. lia.
Qed.

Lemma nsf_train_mode (s : notebook T) : training (NSF.train L zz s) = true.
Proof.
  unfold NSF.train. cbv zeta.
  rewrite draw_training, nsf_last_round, for_in_snoc.
  now rewrite (proj1 (proj2 (reverse_rest L zz 9999 _))).
Qed.

(** With a [savefig] that refuses the keyword the run ends in the heat-map
    cell at the latest. *)
Lemma nsf_tail_refused (t : notebook T) :
  match NSF.sphere L t with
  | Some v =>
      match NSF.heatmaps_cell L zz false v with
      | Some w => NSF.surfaces_cell L zz false w
      | None => None
      end
  | None => None
  end = None.
Proof. now destruct (NSF.sphere L t). Qed.

(** With a [savefig] that writes, the cells after training fail only in
    [torch.max] of an empty tensor. *)
Lemma nsf_tail_none (t : notebook T) :
  prob t = exp_nan_to_zero L (log_prob L (theta t) false zz) ->
  training t = true ->
  match NSF.sphere L t with
  | Some v =>
      match NSF.heatmaps_cell L zz true v with
      | Some w => NSF.surfaces_cell L zz true w
      | None => None
      end
  | None => None
  end = None <->
  log_prob L (theta t) false zz = [] \/
  target_log_prob L zz = [] \/
  log_prob L (theta t) true zz = [].
Proof.
  intros Hp Hm.
  destruct (NSF.sphere L t) as [u|] eqn:E.
  - destruct (sphere_some t u E) as (Ht & Hmode & _).
    unfold NSF.heatmaps_cell, NSF.surfaces_cell, NSF.savefig.
    pose proof (surfaces_none (write (NSF.heatmaps L zz u) "2dplot.png" png)) as Hs.
    change (theta (write (NSF.heatmaps L zz u) "2dplot.png" png))
      with (theta (NSF.heatmaps L zz u)) in Hs.
    change (training (write (NSF.heatmaps L zz u) "2dplot.png" png))
      with (training (NSF.heatmaps L zz u)) in Hs.
    rewrite (proj1 (heatmaps_frame u)), (proj1 (proj2 (heatmaps_frame u))) in Hs.
    rewrite Ht, Hmode, Hm in Hs.
    assert (Hne : log_prob L (theta t) false zz <> []).
    { intros Hnil. rewrite Hnil in Hp.
      apply (proj2 (sphere_none t)) in Hp. congruence. }
    destruct (NSF.surfaces L zz (write (NSF.heatmaps L zz u) "2dplot.png" png))
      as [w|].
    + split; [discriminate|].
      intros [H|H]; [contradiction|].
      apply (proj2 Hs) in H. discriminate H.
    + split; [|reflexivity]. intros _. right. now apply (proj1 Hs).
  - apply (proj1 (sphere_none t)) in E. rewrite Hp in E.
    apply (proj1 (exp_nan_to_zero_nil _)) in E.
    split; [intros _; left; exact E | reflexivity].
Qed.

Lemma nsf_run_refused (s : notebook T) : NSF.run L zz false s = None.
Proof. unfold NSF.run. apply nsf_tail_refused. Qed.

Lemma nsf_run_none (s : notebook T) :
  NSF.run L zz true s = None <->
  log_prob L (theta (NSF.train L zz (NSF.plot_model L zz (NSF.plot_target L zz s))))
    false zz = [] \/
  target_log_prob L zz = [] \/
  log_prob L (theta (NSF.train L zz (NSF.plot_model L zz (NSF.plot_target L zz s))))
    true zz = [].
Proof.
  unfold NSF.run. apply nsf_tail_none.
  - apply (nsf_prob_after_training L zz).
  - apply nsf_train_mode.
Qed.

Lemma loop_drawn_length (body : Z -> notebook T -> notebook T)
      (k n : Z) (s : notebook T) :
  0 < k ->
  (forall it t, exists C,
      drawn (body it t) =
      drawn t ++ (if (it + 1) mod k =? 0 then [pcolormesh C] else [])) ->
  0 <= n ->
  Z.of_nat (List.length (drawn (for_in (range n) body s))) =
  Z.of_nat (List.length (drawn s)) + n / k.
Proof.
  intros Hk Hbody Hn.
  apply (for_in_range_inv body
           (fun j t => Z.of_nat (List.length (drawn t)) =
                       Z.of_nat (List.length (drawn s)) + j / k));
    [assumption| rewrite Zdiv_0_l; lia |].
  intros it t [Hit _] IH. destruct (Hbody it t) as [C ->].
  rewrite length_app, Nat2Z.inj_add, IH, (div_succ body k it Hk Hit).
  destruct ((it + 1) mod k =? 0); simpl; lia.
Qed.

Lemma nsf_train_drawn (s : notebook T) :
  List.length (drawn (NSF.train L zz s)) = (List.length (drawn s) + 21)%nat.
Proof.
  apply Nat2Z.inj. unfold NSF.train. cbv zeta.
  rewrite draw_drawn, length_app, !Nat2Z.inj_add.
  rewrite (loop_drawn_length _ NSF.show_iter);
    [ fields; change (NSF.max_iter / NSF.show_iter) with 20; simpl; lia
    | reflexivity
    | intros it t; eexists; apply reverse_draws
    | exact nsf_max_iter_nonneg ].
Qed.

Lemma realnvp_train_drawn (s : notebook T) :
  List.length (drawn (RealNVP.train L zz s)) = (List.length (drawn s) + 6)%nat.
Proof.
  apply Nat2Z.inj. unfold RealNVP.train. cbv zeta.
  rewrite draw_drawn, length_app, !Nat2Z.inj_add.
  rewrite (loop_drawn_length _ RealNVP.show_iter);
    [ fields; change (RealNVP.max_iter / RealNVP.show_iter) with 5; simpl; lia
    | reflexivity
    | intros it t; eexists; apply forward_draws
    | exact realnvp_max_iter_nonneg ].
Qed.

Lemma plot_learned_frame (t : notebook T) :
  disk (RealNVP.plot_learned L zz t) = disk t /\
  List.length (drawn (RealNVP.plot_learned L zz t)) = S (List.length (drawn t)).
Proof.
  split; [reflexivity|]. rewrite plot_learned_draws, length_app. simpl. lia.
Qed.

Lemma plot_prior_frame (t : notebook T) :
  disk (RealNVP.plot_prior_and_posterior L zz t) = disk t /\
  List.length (drawn (RealNVP.plot_prior_and_posterior L zz t)) =
    S (S (List.length (drawn t))).
Proof.
  split; [reflexivity|].
  unfold RealNVP.plot_prior_and_posterior. fields. rewrite !length_app. simpl. lia.
Qed.

Lemma nsf_plots_frame (t : notebook T) :
  disk (NSF.plot_model L zz (NSF.plot_target L zz t)) = disk t /\
  List.length (drawn (NSF.plot_model L zz (NSF.plot_target L zz t))) =
    S (S (List.length (drawn t))).
Proof.
  split; [reflexivity|].
  unfold NSF.plot_model, NSF.plot_target. fields. rewrite !length_app. simpl. lia.
Qed.

Lemma paths_app (d d' : list (string * file T)) :
  paths (d ++ d') = paths d ++ paths d'.
Proof. apply map_app. Qed.

(** The cells after training, from any notebook state [t]. *)
Lemma nsf_tail_outputs (t u : notebook T) :
  match NSF.sphere L t with
  | Some v =>
      match NSF.heatmaps_cell L zz true v with
      | Some w => NSF.surfaces_cell L zz true w
      | None => None
      end
  | None => None
  end = Some u ->
  List.length (drawn u) = (List.length (drawn t) + 5)%nat /\
  disk u = disk t ++ [("2dplot.png"%string, png); ("3dplot.png"%string, png)].
Proof.
  destruct (NSF.sphere L t) as [v|] eqn:E; [|discriminate].
  destruct (sphere_some t v E) as (_ & _ & Hdisk & _ & Hlen).
  unfold NSF.heatmaps_cell, NSF.surfaces_cell, NSF.savefig.
  destruct (NSF.surfaces L zz (write (NSF.heatmaps L zz v) "2dplot.png" png))
    as [w|] eqn:Hw; [|discriminate].
  intros [= <-].
  destruct (surfaces_some _ w Hw) as (Hdw & _ & Hlw).
  destruct (heatmaps_frame v) as (_ & _ & Hdh & _ & Hlh).
  split.
  - change (drawn (write w "3dplot.png" png)) with (drawn w).
    change (drawn (write (NSF.heatmaps L zz v) "2dplot.png" png))
      with (drawn (NSF.heatmaps L zz v)) in Hlw.
    lia.
  - change (disk (write w "3dplot.png" png))
      with (disk w ++ [("3dplot.png"%string, @png T)]).
    rewrite Hdw.
    change (disk (write (NSF.heatmaps L zz v) "2dplot.png" png))
      with (disk (NSF.heatmaps L zz v) ++ [("2dplot.png"%string, @png T)]).
    now rewrite Hdh, Hdisk, <- app_assoc.
Qed.

Lemma nsf_run_some (s u : notebook T) :
  NSF.run L zz true s = Some u ->
  List.length (drawn u) =
    (List.length (drawn (NSF.train L zz (NSF.plot_model L zz (NSF.plot_target L zz s))))
     + 5)%nat /\
  disk u =
    disk (NSF.train L zz (NSF.plot_model L zz (NSF.plot_target L zz s))) ++
    [("2dplot.png"%string, png); ("3dplot.png"%string, png)].
Proof. unfold NSF.run. apply nsf_tail_outputs. Qed.

(** X11: what a notebook leaves behind.  The Real NVP notebook makes nine
    drawings and writes no file.  The neural spline flow notebook has made
    twenty-three drawings and written the twenty checkpoints when its
    training cell ends.  Its last two cells call [savefig] with the keyword
    [dvi].  Under a matplotlib that refuses the keyword the notebook does
    not run through: the heat-map cell raises in [savefig], after
    twenty-six drawings and with the twenty checkpoints on disk.  Under one
    that writes the file, a run that gets through has made twenty-eight
    drawings and written twenty-two files in this order: the twenty
    checkpoints, [2dplot.png], [3dplot.png]. *)
Theorem notebook_outputs (s : notebook T) :
  List.length (drawn (RealNVP.run L zz s)) = (List.length (drawn s) + 9)%nat /\
  disk (RealNVP.run L zz s) = disk s /\
  List.length (drawn (NSF.train L zz (NSF.plot_model L zz (NSF.plot_target L zz s)))) =
    (List.length (drawn s) + 23)%nat /\
  paths (disk (NSF.train L zz (NSF.plot_model L zz (NSF.plot_target L zz s)))) =
    paths (disk s) ++
    map (fun k => NSF.checkpoint_path (NSF.show_iter * k)) (map Z.succ (range 20)) /\
  NSF.run L zz false s = None /\
  (forall v,
     NSF.sphere L (NSF.train L zz (NSF.plot_model L zz (NSF.plot_target L zz s))) =
       Some v ->
     NSF.heatmaps_cell L zz false v = None /\
     List.length (drawn (NSF.heatmaps L zz v)) = (List.length (drawn s) + 26)%nat /\
     paths (disk (NSF.heatmaps L zz v)) =
       paths (disk s) ++
       map (fun k => NSF.checkpoint_path (NSF.show_iter * k)) (map Z.succ (range 20))) /\
  (forall u, NSF.run L zz true s = Some u ->
     List.length (drawn u) = (List.length (drawn s) + 28)%nat /\
     paths (disk u) =
       paths (disk s) ++
       map (fun k => NSF.checkpoint_path (NSF.show_iter * k)) (map Z.succ (range 20)) ++
       ["2dplot.png"; "3dplot.png"]%string).
Proof.
  assert (Hd : List.length
                 (drawn (NSF.train L zz (NSF.plot_model L zz (NSF.plot_target L zz s)))) =
               (List.length (drawn s) + 23)%nat).
  { rewrite nsf_train_drawn, (proj2 (nsf_plots_frame s)). lia. }
  assert (Hp : paths (disk (NSF.train L zz
                              (NSF.plot_model L zz (NSF.plot_target L zz s)))) =
               paths (disk s) ++
               map (fun k => NSF.checkpoint_path (NSF.show_iter * k))
                 (map Z.succ (range 20))).
  { now rewrite (nsf_train_paths L zz), (proj1 (nsf_plots_frame s)). }
  split; [|split; [|split; [|split; [|split; [|split]]]]].
  - unfold RealNVP.run.
    rewrite (proj2 (plot_learned_frame _)), realnvp_train_drawn,
      (proj2 (plot_prior_frame s)). lia.
  - unfold RealNVP.run.
    rewrite (proj1 (plot_learned_frame _)), (realnvp_train_disk L zz),
      (proj1 (plot_prior_frame s)). reflexivity.
  - exact Hd.
  - exact Hp.
  - apply nsf_run_refused.
  - intros v Hv.
    destruct (sphere_some _ v Hv) as (_ & _ & Hdisk & _ & Hlen).
    destruct (heatmaps_frame v) as (_ & _ & Hdh & _ & Hlh).
    split; [reflexivity|]. split.
    + rewrite Hlh, Hlen, Hd. lia.
    + now rewrite Hdh, Hdisk, Hp.
  - intros u Hu.
    destruct (nsf_run_some s u Hu) as [Hlen Hdisk].
    split.
    + rewrite Hlen, Hd. lia.
    + rewrite Hdisk, paths_app, Hp. now rewrite <- app_assoc.
Qed.

End Notebooks.

Lemma sample_grid_length (mu : float) (m : bool) :
  List.length (log_prob Sample.lib mu m Sample.zz) = 3%nat /\
  List.length (target_log_prob Sample.lib Sample.zz) = 3%nat.
Proof. split; reflexivity. Qed.

Lemma notebook_outputs_witness :
  exists u, NSF.run Sample.lib Sample.zz true (Sample.fresh 1) = Some u /\
            List.length (drawn u) = 28%nat.
Proof.
  destruct (NSF.run Sample.lib Sample.zz true (Sample.fresh 1)) as [u|] eqn:E.
  - exists u. split; [reflexivity|].
    exact (proj1 (proj2 (proj2 (proj2 (proj2 (proj2 (proj2
             (notebook_outputs Sample.lib Sample.zz (Sample.fresh 1)))))))
             u E)).
  - apply nsf_run_none in E.
    destruct E as [E|[E|E]]; apply (f_equal (@List.length float)) in E;
      rewrite ?(proj1 (sample_grid_length _ _)), ?(proj2 (sample_grid_length 0 true)) in E;
      discriminate E.
Defined.

(** ** The image target: errors and ignored channels *)

Section ImageEdges.
Context {px : Type}.
Variable one_minus : px -> px.

Lemma channel0_row_channels (row : list (list px)) (cs : list px) :
  RealNVP.channel0_row row = Some cs ->
  Forall (fun p => p <> []) row /\ List.length cs = List.length row.
Proof.
  revert cs. induction row as [|p r IH]; intros cs H; simpl in H.
  - injection H as <-. now split.
  - destruct p as [|c p']; [discriminate|]. simpl in H.
    destruct (RealNVP.channel0_row r) as [cs'|]; [|discriminate].
    injection H as <-. destruct (IH cs' eq_refl) as [Hf Hl].
    split; [constructor; [discriminate | exact Hf] | simpl; now rewrite Hl].
Qed.

Lemma channel0_channels (a : list (list (list px))) (c : list (list px)) :
  RealNVP.channel0 a = Some c ->
  RealNVP.has_channels a /\ map (@List.length px) c = map (@List.length (list px)) a.
Proof.
  revert c. induction a as [|row r IH]; intros c H; simpl in H.
  - injection H as <-. split; [constructor | reflexivity].
  - destruct (RealNVP.channel0_row row) as [cs|] eqn:Hrow; [|discriminate].
    destruct (RealNVP.channel0 r) as [rs|]; [|discriminate].
    injection H as <-. destruct (IH rs eq_refl) as [Hf Hl].
    destruct (channel0_row_channels row cs Hrow) as [Hr Hlr].
    split; [constructor; assumption | simpl; now rewrite Hl, Hlr].
Qed.

Lemma channel0_none (a : list (list (list px))) :
  RealNVP.channel0 a = None <-> ~ RealNVP.has_channels a.
Proof.
  split.
  - intros H Ha. destruct (channel0_total a Ha) as [c Hc]. congruence.
  - intros Hn. destruct (RealNVP.channel0 a) as [c|] eqn:Hc; [|reflexivity].
    contradiction Hn. now apply (channel0_channels a c).
Qed.

Lemma target_none_img (decoded : RealNVP.ndarray px) :
  RealNVP.target one_minus decoded = None <-> RealNVP.first_channel decoded = None.
Proof.
  unfold RealNVP.target, RealNVP.img.
  destruct (RealNVP.first_channel decoded); split; congruence.
Qed.

(** X12: on a decoded image that has pixels (at least one row, no empty
    row), the set-up cell of the Real NVP notebook fails on the image
    (IndexError in [[:, :, 0]]) exactly when the decoded array is
    two-dimensional, as for a grayscale file, or when a pixel has no
    channel; otherwise the target's image has the rows and columns of the
    decoded array. *)
Theorem image_target_errors (decoded : RealNVP.ndarray px) :
  has_pixels decoded ->
  (RealNVP.target one_minus decoded = None <->
   (exists g, decoded = RealNVP.dim2 g) \/
   (exists a, decoded = RealNVP.dim3 a /\ ~ RealNVP.has_channels a)) /\
  (forall a p, decoded = RealNVP.dim3 a ->
               RealNVP.target one_minus decoded = Some p ->
               RealNVP.image p <> [] /\
               map (@List.length px) (RealNVP.image p) =
               map (@List.length (list px)) a).
Proof.
  intros Hpx. split.
  - rewrite target_none_img. destruct decoded as [g|a]; simpl.
    + split; [intros _; left; now exists g | reflexivity].
    + rewrite channel0_none. split.
      * intros Hn. right. now exists a.
      * intros [[g Hg]|[a' [Ha' Hn]]]; [discriminate|]. now injection Ha' as ->.
  - intros a p -> H. unfold RealNVP.target, RealNVP.img in H. simpl in H.
    destruct (RealNVP.channel0 a) as [c|] eqn:Hc; [|discriminate].
    injection H as <-. simpl.
    assert (Hl : map (@List.length px) (map (map one_minus) c) =
                 map (@List.length (list px)) a).
    { rewrite <- (proj2 (channel0_channels a c Hc)), map_map.
      apply map_ext. intros row. now rewrite length_map. }
    split; [|exact Hl].
    intros Hnil. rewrite Hnil in Hl. destruct Hpx as [Hne _].
    destruct a; [now apply Hne | discriminate Hl].
Qed.

Lemma channel0_row_agree (row row' : list (list px)) :
  Forall2 (fun p q => nth_error p 0 = nth_error q 0) row row' ->
  RealNVP.channel0_row row = RealNVP.channel0_row row'.
Proof.
  induction 1 as [|p q r r' Hpq _ IH]; cbn [RealNVP.channel0_row]; [reflexivity|].
  now rewrite Hpq, IH.
Qed.

Lemma channel0_agree (a a' : list (list (list px))) :
  Forall2 (Forall2 (fun p q => nth_error p 0 = nth_error q 0)) a a' ->
  RealNVP.channel0 a = RealNVP.channel0 a'.
Proof.
  induction 1 as [|r r' t t' Hr _ IH]; simpl; [reflexivity|].
  now rewrite (channel0_row_agree r r' Hr), IH.
Qed.

Lemma firstn1_agrees (a : list (list (list px))) :
  Forall2 (Forall2 (fun p q => nth_error p 0 = nth_error q 0))
    (map (map (firstn 1)) a) a.
Proof.
  induction a as [|row r IH]; simpl; constructor; [|exact IH].
  clear IH. induction row as [|p row IH]; simpl; constructor; [|exact IH].
  now destruct p.
Qed.

(** X13: the target depends on the first channel only: two decoded images
    that agree on channel 0 at every pixel give the same target, whatever
    their other channels (green, blue, alpha) hold; in particular dropping
    all channels but the first changes nothing. *)
Theorem image_target_ignores_other_channels (a a' : list (list (list px))) :
  Forall2 (Forall2 (fun p q => nth_error p 0 = nth_error q 0)) a a' ->
  RealNVP.target one_minus (RealNVP.dim3 a) =
    RealNVP.target one_minus (RealNVP.dim3 a') /\
  RealNVP.target one_minus (RealNVP.dim3 (map (map (firstn 1)) a)) =
    RealNVP.target one_minus (RealNVP.dim3 a).
Proof.
  intros H. unfold RealNVP.target, RealNVP.img. cbn [RealNVP.first_channel]. split.
  - now rewrite (channel0_agree a a' H).
  - now rewrite (channel0_agree _ _ (firstn1_agrees a)).
Qed.

End ImageEdges.

Lemma image_target_errors_witness :
  has_pixels (RealNVP.dim2 [[0.5; 0.25]]%float) /\
  RealNVP.target (fun x => 1 - x)%float (RealNVP.dim2 [[0.5; 0.25]]%float) = None.
Proof.
  assert (H : has_pixels (RealNVP.dim2 [[0.5; 0.25]]%float))
    by (split; [discriminate | repeat constructor; discriminate]).
  split; [exact H|].
  apply (proj2 (proj1 (image_target_errors (fun x => 1 - x)%float _ H))).
  left. now eexists.
Defined.

Lemma image_target_ignores_other_channels_witness :
  RealNVP.target (fun x => 1 - x)%float (RealNVP.dim3 [[[0.5; 0.25]]]%float) =
  RealNVP.target (fun x => 1 - x)%float (RealNVP.dim3 [[[0.5; 1; 1; 1]]]%float).
Proof.
  apply (image_target_ignores_other_channels (fun x => 1 - x)%float).
  repeat constructor.
Defined.

(** ** The evaluation grid and the reshaped density *)

Section GridFacts.
Context {A : Type}.

Lemma cat_row_point (x : A) (ys : list A) :
  Grid.cat_row (map (fun u => [u]) (map (fun _ => x) ys)) (map (fun u => [u]) ys) =
  Some (map (fun y => [x; y]) ys).
Proof.
  induction ys as [|y ys IH]; simpl; [reflexivity|]. now rewrite IH.
Qed.

Lemma cat2_mesh (xs ys : list A) :
  Grid.cat2 (Grid.unsqueeze2 (fst (Grid.meshgrid xs ys)))
            (Grid.unsqueeze2 (snd (Grid.meshgrid xs ys))) =
  Some (map (fun x => map (fun y => [x; y]) ys) xs).
Proof.
  unfold Grid.meshgrid, Grid.unsqueeze2. simpl fst. simpl snd.
  induction xs as [|x xs IH]; [reflexivity|].
  cbn [map Grid.cat2]. rewrite cat_row_point, IH. reflexivity.
Qed.

Lemma rows_of_two_concat (l : list (list A)) :
  Forall (fun r => List.length r = 2%nat) l ->
  Grid.rows_of_two (List.concat l) = Some l.
Proof.
  induction 1 as [|r l Hr _ IH]; [reflexivity|].
  destruct r as [|x [|y [|z r]]]; try discriminate.
  simpl. simpl in IH. now rewrite IH.
Qed.

Lemma concat_no_columns (xs : list A) :
  List.concat (List.concat (map (fun x => map (fun y : A => [x; y]) []) xs)) = [].
Proof. induction xs as [|x xs IH]; [reflexivity | exact IH]. Qed.

Lemma zz_points (xs ys : list A) :
  Grid.zz xs ys =
  match xs, ys with
  | [], _ | _, [] => None
  | _, _ => Some (flat_map (fun x => map (fun y => [x; y]) ys) xs)
  end.
Proof.
  unfold Grid.zz.
  pose proof (cat2_mesh xs ys) as H.
  destruct (Grid.meshgrid xs ys) as [xx yy]. simpl in H. rewrite H.
  unfold Grid.view_rows_of_two.
  destruct xs as [|x xs]; [reflexivity|].
  destruct ys as [|y ys]; [now rewrite concat_no_columns|].
  destruct (List.concat
              (List.concat (map (fun x0 => map (fun y0 => [x0; y0]) (y :: ys)) (x :: xs))))
    as [|e flat] eqn:E; [discriminate E|].
  rewrite <- E, flat_map_concat_map. apply rows_of_two_concat.
  apply Forall_forall. intros r Hr. apply in_concat in Hr.
  destruct Hr as (row & Hrow & Hin).
  apply in_map_iff in Hrow. destruct Hrow as (x' & <- & _).
  apply in_map_iff in Hin. destruct Hin as (y' & <- & _). reflexivity.
Qed.

Lemma nth_flat_map_uniform {B : Type} (f : A -> list B) (m : nat)
      (xs : list A) (i j : nat) (x : A) :
  (forall u, List.length (f u) = m) ->
  nth_error xs i = Some x -> (j < m)%nat ->
  nth_error (flat_map f xs) (i * m + j) = nth_error (f x) j.
Proof.
  intros Hf. revert i. induction xs as [|x0 xs IH]; intros i Hi Hj.
  - now destruct i.
  - destruct i as [|i]; simpl in Hi.
    + injection Hi as ->. simpl. rewrite nth_error_app1; [reflexivity|].
      now rewrite Hf.
    + simpl flat_map. rewrite nth_error_app2 by (rewrite Hf; simpl; lia).
      rewrite Hf. replace (S i * m + j - m)%nat with (i * m + j)%nat by (simpl; lia).
      now apply IH.
Qed.

Lemma flat_map_uniform_length {B : Type} (f : A -> list B) (m : nat) (xs : list A) :
  (forall u, List.length (f u) = m) ->
  List.length (flat_map f xs) = (List.length xs * m)%nat.
Proof.
  intros Hf. induction xs as [|x xs IH]; [reflexivity|].
  simpl. now rewrite length_app, Hf, IH.
Qed.

Lemma meshgrid_at (xs ys : list A) (i j : nat) (x y : A) :
  nth_error xs i = Some x -> nth_error ys j = Some y ->
  Grid.at2 (fst (Grid.meshgrid xs ys)) i j = Some x /\
  Grid.at2 (snd (Grid.meshgrid xs ys)) i j = Some y.
Proof.
  intros Hx Hy. unfold Grid.at2, Grid.meshgrid. simpl fst. simpl snd.
  rewrite !nth_error_map, Hx. simpl. now rewrite nth_error_map, Hy.
Qed.

Lemma view_some (n m : nat) (flat : list A) (t : list (list A)) :
  Grid.view n m flat = Some t ->
  List.length flat = (n * m)%nat /\
  List.length t = n /\
  List.concat t = flat /\
  forall i j, (j < m)%nat -> Grid.at2 t i j =
                             if (i <? n)%nat then nth_error flat (i * m + j) else None.
Proof.
  revert flat t. induction n as [|n IH]; intros flat t H; simpl in H.
  - destruct flat; [|discriminate]. injection H as <-.
    repeat split. intros [|i] j _; reflexivity.
  - destruct (Nat.ltb_spec (List.length flat) m) as [|Hge]; [discriminate|].
    destruct (Grid.view n m (skipn m flat)) as [rs|] eqn:E; [|discriminate].
    injection H as <-. destruct (IH _ _ E) as (Hlen & Hn & Hc & Hat).
    rewrite length_skipn in Hlen.
    split; [simpl; lia|]. split; [simpl; now rewrite Hn|].
    split; [simpl; now rewrite Hc, firstn_skipn|].
    intros [|i] j Hj.
    + unfold Grid.at2. simpl. now rewrite nth_error_firstn, (proj2 (Nat.ltb_lt j m) Hj).
    + change (Grid.at2 (firstn m flat :: rs) (S i) j) with (Grid.at2 rs i j).
      rewrite (Hat i j Hj). change (S i <? S n)%nat with (i <? n)%nat.
      destruct (i <? n)%nat; [|reflexivity].
      rewrite nth_error_skipn. f_equal. simpl. lia.
Qed.

Lemma view_total (n m : nat) (flat : list A) :
  List.length flat = (n * m)%nat -> exists t, Grid.view n m flat = Some t.
Proof.
  revert flat. induction n as [|n IH]; intros flat H; simpl.
  - destruct flat; [now eexists | discriminate].
  - destruct (Nat.ltb_spec (List.length flat) m) as [Hlt|Hge]; [simpl in H; lia|].
    destruct (IH (skipn m flat)) as [rs ->]; [|now eexists].
    rewrite length_skipn. simpl in H. lia.
Qed.

Lemma zz_rows (xs ys : list A) (pts : list (list A)) :
  Grid.zz xs ys = Some pts ->
  List.length pts = (List.length xs * List.length ys)%nat /\
  forall i j x y, nth_error xs i = Some x -> nth_error ys j = Some y ->
    nth_error pts (i * List.length ys + j) = Some [x; y] /\
    Grid.at2 (fst (Grid.meshgrid xs ys)) i j = Some x /\
    Grid.at2 (snd (Grid.meshgrid xs ys)) i j = Some y.
Proof.
  rewrite zz_points. intros Hpts.
  assert (E : pts = flat_map (fun x => map (fun y => [x; y]) ys) xs).
  { destruct xs as [|x0 xs']; [discriminate|].
    destruct ys as [|y0 ys']; [discriminate|]. now injection Hpts as <-. }
  subst pts. clear Hpts.
  split; [apply flat_map_uniform_length; intros u; apply length_map|].
  intros i j x y Hx Hy. split; [|now apply meshgrid_at].
  rewrite (nth_flat_map_uniform _ (List.length ys) xs i j x);
    [ now rewrite nth_error_map, Hy
    | intros u; apply length_map
    | assumption
    | apply nth_error_Some; congruence ].
Qed.


(** X15: reshaping a flat tensor to the shape of [xx].  The reshape fails
    unless the tensor has [n * m] entries; when it succeeds, entry [i, j] of
    the result is entry [i * m + j] of the flat tensor, and flattening the
    result gives the flat tensor back.  With [n] and [m] the lengths of the
    coordinate vectors, [i * m + j] is the row of [zz] that holds the point
    [(xs[i], ys[j])]. *)
Theorem reshaped_density_is_aligned (xs ys : list A) (n m : nat) (flat : list A) :
  (Grid.view n m flat = None <-> List.length flat <> (n * m)%nat) /\
  (forall t, Grid.view n m flat = Some t ->
     List.length t = n /\ List.concat t = flat /\
     (forall i j, (i < n)%nat -> (j < m)%nat ->
                  Grid.at2 t i j = nth_error flat (i * m + j)) /\
     (n = List.length xs -> m = List.length ys ->
      forall pts i j x y,
        Grid.zz xs ys = Some pts ->
        nth_error xs i = Some x -> nth_error ys j = Some y ->
        List.length pts = List.length flat /\
        nth_error pts (i * m + j) = Some [x; y] /\
        Grid.at2 t i j = nth_error flat (i * m + j))).
Proof.
  split.
  - split.
    + intros Hn Hl. destruct (view_total n m flat Hl) as [t Ht]. congruence.
    + intros Hl. destruct (Grid.view n m flat) as [t|] eqn:E; [|reflexivity].
      contradiction Hl. now apply (view_some n m flat t).
  - intros t Ht. destruct (view_some n m flat t Ht) as (Hlen & Hn & Hc & Hat).
    assert (Hcell : forall i j, (i < n)%nat -> (j < m)%nat ->
                                Grid.at2 t i j = nth_error flat (i * m + j)).
    { intros i j Hi Hj. rewrite (Hat i j Hj).
      now rewrite (proj2 (Nat.ltb_lt i n) Hi). }
    split; [exact Hn|]. split; [exact Hc|]. split; [exact Hcell|].
    intros En Em pts i j x y Hpts Hx Hy.
    destruct (zz_rows xs ys pts Hpts) as [Hl Hrows].
    split; [rewrite Hl, Hlen, En, Em; reflexivity|].
    split; [rewrite Em; apply (Hrows i j x y Hx Hy)|].
    apply Hcell.
    + rewrite En. apply nth_error_Some. congruence.
    + rewrite Em. apply nth_error_Some. congruence.
Qed.

End GridFacts.


Lemma reshaped_density_is_aligned_witness :
  Grid.view 2 3 [1; 2; 3; 4; 5; 6] = Some [[1; 2; 3]; [4; 5; 6]] /\
  Grid.at2 [[1; 2; 3]; [4; 5; 6]] 1 2 = nth_error [1; 2; 3; 4; 5; 6] (1 * 3 + 2).
Proof.
  split; [reflexivity|].
  apply (proj2 (reshaped_density_is_aligned [10; 20] [7; 8; 9] 2 3 [1; 2; 3; 4; 5; 6])
           [[1; 2; 3]; [4; 5; 6]] ltac:(reflexivity)); lia.
Defined.

(** ** The history and the checkpoints, entry by entry *)

Section Snapshots.
Context {T : carriers}.
Variable L : library T.
Variable zz : points T.

Lemma nsf_after_loop (s : notebook T) (n : Z) :
  nsf_after L zz s n =
  for_in (range n) (NSF.iteration L zz)
    (set_scheduler (set_optimizer (set_loss_hist s []) (Adam L 5e-4 0) 0)
       (cosine_annealing L NSF.max_iter 0
          (opt (set_optimizer (set_loss_hist s []) (Adam L 5e-4 0) 0))) 0).
Proof. reflexivity. Qed.

Lemma realnvp_after_loop (s : notebook T) (n : Z) :
  realnvp_after L zz s n =
  for_in (range n) (RealNVP.iteration L zz)
    (set_optimizer (set_loss_hist s []) (Adam L 1e-4 1e-4) 0).
Proof. reflexivity. Qed.

Lemma nsf_train_after (s : notebook T) :
  NSF.train L zz s =
  draw (nsf_after L zz s NSF.max_iter)
       (plot (loss_hist (nsf_after L zz s NSF.max_iter))).
Proof. unfold NSF.train. cbv zeta. rewrite !nsf_after_loop. reflexivity. Qed.

Lemma realnvp_train_after (s : notebook T) :
  RealNVP.train L zz s =
  draw (realnvp_after L zz s RealNVP.max_iter)
       (plot (loss_hist (realnvp_after L zz s RealNVP.max_iter))).
Proof. unfold RealNVP.train. cbv zeta. rewrite !realnvp_after_loop. reflexivity. Qed.

Lemma nsf_after_succ (s : notebook T) (n : Z) :
  0 <= n ->
  nsf_after L zz s (n + 1) = NSF.iteration L zz n (nsf_after L zz s n).
Proof.
  intros Hn. unfold nsf_after. now rewrite range_succ, for_in_snoc.
Qed.

Lemma realnvp_after_succ (s : notebook T) (n : Z) :
  0 <= n ->
  realnvp_after L zz s (n + 1) = RealNVP.iteration L zz n (realnvp_after L zz s n).
Proof.
  intros Hn. unfold realnvp_after. now rewrite range_succ, for_in_snoc.
Qed.

(** The history after [n] rounds, from the states the rounds started in. *)
Lemma history_by_round (after : Z -> notebook T) (loss : notebook T -> float) (n : Z) :
  loss_hist (after 0) = [] ->
  (forall k, 0 <= k ->
             loss_hist (after (k + 1)) = loss_hist (after k) ++ [loss (after k)]) ->
  0 <= n ->
  loss_hist (after n) = map (fun k => loss (after k)) (range n).
Proof.
  intros H0 Hs Hn. rewrite <- (Z2Nat.id n Hn). generalize (Z.to_nat n) as m.
  clear n Hn. intros n. induction n as [|n IH]; [exact H0|].
  rewrite range_snoc, map_app. simpl map.
  replace (Z.of_nat (S n)) with (Z.of_nat n + 1) by lia.
  rewrite Hs by lia. now rewrite IH.
Qed.

Lemma nsf_history (s : notebook T) (n : Z) :
  0 <= n ->
  loss_hist (nsf_after L zz s n) =
  map (fun k => item L (reverse_loss L (nsf_after L zz s k))) (range n).
Proof.
  intros Hn.
  apply (history_by_round (nsf_after L zz s)
           (fun t => item L (reverse_loss L t))); [reflexivity| |exact Hn].
  intros k Hk. rewrite nsf_after_succ by assumption. apply reverse_logs.
Qed.

Lemma realnvp_history (s : notebook T) (n : Z) :
  0 <= n ->
  loss_hist (realnvp_after L zz s n) =
  map (fun k => item L (forward_loss L (realnvp_after L zz s k))) (range n).
Proof.
  intros Hn.
  apply (history_by_round (realnvp_after L zz s)
           (fun t => item L (forward_loss L t))); [reflexivity| |exact Hn].
  intros k Hk. rewrite realnvp_after_succ by assumption. apply forward_logs.
Qed.

(** X16: the loss history lists the losses in iteration order: after either
    training cell, entry [i] of [loss_hist] is the loss computed in
    iteration [i], from the notebook as the first [i] iterations left it;
    the curve drawn at the end of the cell plots exactly these values
    against the iteration number. *)
Theorem loss_history_in_iteration_order (s : notebook T) (i : nat) :
  (Z.of_nat i < 10000) ->
  nth_error (loss_hist (NSF.train L zz s)) i =
    Some (item L (reverse_loss L (nsf_after L zz s (Z.of_nat i)))) /\
  nth_error (loss_hist (RealNVP.train L zz s)) i =
    Some (item L (forward_loss L (realnvp_after L zz s (Z.of_nat i)))).
Proof.
  intros Hi. split.
  - rewrite nsf_train_after, draw_loss_hist.
    rewrite nsf_history, nth_error_map, range_nth by (unfold NSF.max_iter; lia).
    reflexivity.
  - rewrite realnvp_train_after, draw_loss_hist.
    rewrite realnvp_history, nth_error_map, range_nth
      by (unfold RealNVP.max_iter; lia).
    reflexivity.
Qed.

(** The files after [n] rounds: one snapshot per completed block of
    [show_iter] rounds. *)
Lemma nsf_snapshots (s : notebook T) (n : Z) :
  0 <= n ->
  disk (nsf_after L zz s n) =
  disk s ++
  map (fun k => (NSF.checkpoint_path (NSF.show_iter * k),
                 state_dict (theta (nsf_after L zz s (NSF.show_iter * k)))))
      (map Z.succ (range (n / NSF.show_iter))).
Proof.
  intros Hn. rewrite <- (Z2Nat.id n Hn). generalize (Z.to_nat n) as m. clear n Hn.
  induction m as [|m IH].
  - change (Z.of_nat 0 / NSF.show_iter) with 0. simpl. now rewrite app_nil_r.
  - replace (Z.of_nat (S m)) with (Z.of_nat m + 1) by lia.
    rewrite nsf_after_succ, reverse_writes, IH by lia.
    rewrite <- nsf_after_succ by lia.
    assert (Hk : 0 < NSF.show_iter) by reflexivity.
    pose proof (div_succ (NSF.iteration L zz) NSF.show_iter (Z.of_nat m) Hk
                  ltac:(lia)) as Hd.
    pose proof (Z.div_mod (Z.of_nat m + 1) NSF.show_iter ltac:(lia)) as Hm.
    rewrite Hd. destruct ((Z.of_nat m + 1) mod NSF.show_iter =? 0) eqn:E.
    + apply Z.eqb_eq in E.
      rewrite range_succ by (apply Z.div_pos; lia).
      rewrite !map_app, <- app_assoc. cbn [map].
      replace (NSF.show_iter * Z.succ (Z.of_nat m / NSF.show_iter))
        with (Z.of_nat m + 1) by lia.
      reflexivity.
    + now rewrite Z.add_0_r, app_nil_r.
Qed.

(** X17: checkpoint number [k] of a run ([1 <= k <= 20]) is the file
    ['model_%05i.pt' % (500 * k)] and holds the parameters the model had
    after exactly [500 * k] iterations of the loop: the files of a run are
    snapshots of the training at regular intervals. *)
Theorem checkpoints_are_snapshots (s : notebook T) (k : nat) :
  disk s = [] -> (k < 20)%nat ->
  nth_error (disk (NSF.train L zz s)) k =
  Some (NSF.checkpoint_path (500 * (Z.of_nat k + 1)),
        state_dict (theta (nsf_after L zz s (500 * (Z.of_nat k + 1))))).
Proof.
  intros Hd Hk.
  rewrite nsf_train_after, draw_disk, nsf_snapshots by (unfold NSF.max_iter; lia).
  rewrite Hd, app_nil_l.
  change (NSF.max_iter / NSF.show_iter) with 20.
  rewrite !nth_error_map, range_nth by lia. simpl option_map.
  change NSF.show_iter with 500. now rewrite <- Z.add_1_r.
Qed.

End Snapshots.

Lemma loss_history_in_iteration_order_witness :
  nth_error (loss_hist (NSF.train Sample.lib Sample.zz (Sample.fresh 1))) 0 =
  Some 0.5%float.
Proof.
  exact (proj1 (loss_history_in_iteration_order Sample.lib Sample.zz
                  (Sample.fresh 1) 0 ltac:(lia))).
Defined.

Lemma checkpoints_are_snapshots_witness :
  option_map fst (nth_error (disk (NSF.train Sample.lib Sample.zz (Sample.fresh 1))) 0) =
  Some "model_00500.pt"%string.
Proof.
  now rewrite (checkpoints_are_snapshots Sample.lib Sample.zz (Sample.fresh 1) 0
                 ltac:(reflexivity) ltac:(lia)).
Defined.

(** ** Model assembly in the README and in the spline-flow notebook *)

Lemma for_in_append_block {A : Type} (f : Z -> list A) (l : list Z) (acc : list A) :
  for_in l (fun i xs => xs ++ f i) acc = acc ++ flat_map f l.
Proof.
  unfold for_in. revert acc. induction l as [|x l IH]; intros acc; simpl.
  - now rewrite app_nil_r.
  - now rewrite IH, <- app_assoc.
Qed.

Lemma readme_build (n : Z) :
  Readme.build n =
  flat_map (fun _ => [Readme.AffineCouplingBlock
                        (Readme.Build_MLP [1; 64; 64; 2] true);
                      Readme.Permute 2 "swap"]) (range n).
Proof.
  unfold Readme.build.
  rewrite (for_in_ext Readme.add_layer
             (fun i xs => xs ++ [Readme.AffineCouplingBlock
                                   (Readme.Build_MLP [1; 64; 64; 2] true);
                                 Readme.Permute 2 "swap"])).
  - now rewrite for_in_append_block.
  - intros i t. unfold Readme.add_layer. now rewrite <- app_assoc.
Qed.

(** X18: the flow list of the README's usage example, for any number of
    layers [n] (none when [n <= 0]): it holds two entries per layer, a
    coupling block at every even position and the swap of the two
    dimensions right after it at every odd position; with
    [num_layers = 32] that is 64 entries. *)
Theorem readme_flows_alternate (n : Z) :
  List.length (Readme.build n) = (2 * Z.to_nat n)%nat /\
  (forall i, (i < Z.to_nat n)%nat ->
     nth_error (Readme.build n) (2 * i) =
       Some (Readme.AffineCouplingBlock (Readme.Build_MLP [1; 64; 64; 2] true)) /\
     nth_error (Readme.build n) (2 * i + 1) = Some (Readme.Permute 2 "swap")) /\
  List.length Readme.flows = 64%nat.
Proof.
  rewrite readme_build.
  split; [|split].
  - rewrite (flat_map_uniform_length _ 2) by reflexivity.
    rewrite range_length. lia.
  - intros i Hi. split.
    + replace (2 * i)%nat with (i * 2 + 0)%nat by lia.
      rewrite (nth_flat_map_uniform _ 2 (range n) i 0 (Z.of_nat i));
        [reflexivity | reflexivity | now apply range_nth | lia].
    + replace (2 * i + 1)%nat with (i * 2 + 1)%nat by lia.
      rewrite (nth_flat_map_uniform _ 2 (range n) i 1 (Z.of_nat i));
        [reflexivity | reflexivity | now apply range_nth | lia].
  - reflexivity.
Qed.

Lemma readme_flows_alternate_witness :
  nth_error Readme.flows (2 * 31 + 1) = Some (Readme.Permute 2 "swap") /\
  Readme.build 0 = [].
Proof.
  split; [|reflexivity].
  exact (proj2 (proj1 (proj2 (readme_flows_alternate Readme.num_layers)) 31%nat
                  ltac:(vm_compute; lia))).
Defined.

Section SplineModel.
Variable scale : tensor.
Variable tail_bound : tensor.

Lemma spline_build (n : Z) :
  NSF_model.build tail_bound n =
  map (fun _ => NSF_model.Build_CircularSpline 2 1 512 [1] 10 tail_bound true)
      (range n).
Proof.
  unfold NSF_model.build.
  now rewrite (for_in_append
                 (fun _ => NSF_model.Build_CircularSpline 2 1 512 [1] 10
                             tail_bound true)).
Qed.

(** X19: in the spline-flow notebook every flow layer, however many are
    stacked, treats the same coordinates as circular as the base
    distribution does (index 1), has as many channels as the base has
    dimensions, and carries the same tail bound; the notebook stacks
    [K = 12] of them. *)
Theorem spline_layers_match_base (n : Z) (f : NSF_model.CircularSpline) :
  In f (NSF_model.build tail_bound n) ->
  NSF_model.ind_circ f = NSF_model.ind (NSF_model.base scale) /\
  NSF_model.num_input_channels f = NSF_model.ndim (NSF_model.base scale) /\
  NSF_model.spline_tail_bound f = tail_bound /\
  List.length (NSF_model.build tail_bound n) = Z.to_nat n /\
  List.length (NSF_model.flow_layers tail_bound) = 12%nat.
Proof.
  intros Hin. rewrite spline_build in *.
  apply in_map_iff in Hin. destruct Hin as (k & <- & _).
  split; [reflexivity|]. split; [reflexivity|]. split; [reflexivity|].
  split; [now rewrite length_map, range_length | reflexivity].
Qed.

End SplineModel.

Lemma spline_layers_match_base_witness :
  NSF_model.ind_circ
    (NSF_model.Build_CircularSpline 2 1 512 [1] 10 [5%float] true) = [1].
Proof.
  apply (spline_layers_match_base [1%float] [5%float] 1).
  left. reflexivity.
Defined.

(** ** A run without a finite loss *)

Section Stalled.
Context {T : carriers}.
Variable L : library T.
Variable zz : points T.

Lemma finite_losses_zero_snoc (h : list float) (l : float) :
  finite_losses (h ++ [l]) = 0 -> finite_losses h = 0 /\ non_finite l = true.
Proof.
  rewrite finite_losses_snoc. pose proof (finite_losses_bounds h) as Hb.
  destruct (non_finite l); intros H; split; try reflexivity; lia.
Qed.

Lemma nsf_after_zero (s : notebook T) : nsf_after L zz s 0 = nsf_start L s.
Proof. reflexivity. Qed.

Lemma stalled_rounds (s : notebook T) (n : nat) :
  finite_losses (loss_hist (nsf_after L zz s (Z.of_nat n))) = 0 ->
  theta (nsf_after L zz s (Z.of_nat n)) = theta s /\
  opt_steps (nsf_after L zz s (Z.of_nat n)) = 0.
Proof.
  induction n as [|n IH].
  - intros _. change (Z.of_nat 0) with 0. rewrite nsf_after_zero. now split.
  - replace (Z.of_nat (S n)) with (Z.of_nat n + 1) by lia.
    rewrite (nsf_after_succ L zz) by lia. rewrite reverse_logs.
    intros H. apply finite_losses_zero_snoc in H. destruct H as [Hh Hl].
    destruct (IH Hh) as [Ht Ho].
    destruct (reverse_skips L zz (Z.of_nat n) _ Hl) as (Ht' & Ho' & _).
    rewrite Ht', Ho'. now split.
Qed.

(** X20: if no loss of the first [n] iterations of the reverse-KLD loop was
    finite, the model still has the parameters it started with and the
    optimizer has not stepped; over the whole cell: a run whose loss history
    holds no finite value returns the untrained model. *)
Theorem run_without_finite_loss_trains_nothing (s : notebook T) (n : Z) :
  0 <= n ->
  finite_losses (loss_hist (nsf_after L zz s n)) = 0 ->
  theta (nsf_after L zz s n) = theta s /\
  opt_steps (nsf_after L zz s n) = 0 /\
  (n = NSF.max_iter -> theta (NSF.train L zz s) = theta s).
Proof.
  intros Hn H. rewrite <- (Z2Nat.id n Hn) in H.
  destruct (stalled_rounds s (Z.to_nat n) H) as [Ht Ho].
  rewrite (Z2Nat.id n Hn) in Ht, Ho.
  split; [exact Ht|]. split; [exact Ho|].
  intros E. rewrite (nsf_train_after L zz), draw_theta, <- E. exact Ht.
Qed.

End Stalled.

Lemma run_without_finite_loss_trains_nothing_witness :
  finite_losses (loss_hist (nsf_after Sample.lib Sample.zz (Sample.fresh nan) 3)) = 0 /\
  theta (nsf_after Sample.lib Sample.zz (Sample.fresh nan) 3) = theta (Sample.fresh nan).
Proof.
  split; [vm_compute; reflexivity|].
  exact (proj1 (run_without_finite_loss_trains_nothing Sample.lib Sample.zz
                  (Sample.fresh nan) 3 ltac:(lia) ltac:(vm_compute; reflexivity))).
Defined.

(** ** Further worked runs on the sample library *)

Lemma checkpoint_names_distinct_witness :
  disk (Sample.fresh 1) = [] /\
  NoDup (paths (disk (NSF.train Sample.lib Sample.zz (Sample.fresh 1)))).
Proof.
  split; [reflexivity|].
  apply (proj2 (checkpoint_names_distinct Sample.lib Sample.zz (Sample.fresh 1))).
  reflexivity.
Defined.

Lemma masked_grid_has_no_nan_witness :
  Forall (fun x => torch.isnan x = false) [1%float; infinity] /\
  torch.masked_fill_nan 0%float [1%float; infinity] = [1%float; infinity].
Proof.
  assert (H : Forall (fun x => torch.isnan x = false) [1%float; infinity])
    by (repeat constructor).
  split; [exact H|].
  exact (proj2 (proj2 (proj2 (masked_grid_has_no_nan Sample.lib []))) _ H).
Defined.

